(** * Hardware assistant: Gemini adapter and GraphQL mutations

    A shallow embedding of
      - [saleor/hardware/gemini_client.py]  (class [GeminiClient]),
      - [saleor/hardware/models.py]         (the four Django models),
      - [saleor/graphql/hardware/schema.py] (the three mutations),
    followed by the properties of the specification that concern them.

    Conventions.
      - Python text is a [string]; [str.strip] uses the ASCII part of
        [str.isspace].
      - A Python call that may raise returns a [result]; [try_except] is the
        [try: ... except Exception as e: ...] statement.
      - The remote service, [mimetypes], the file storage and [uuid.uuid4]
        are outside the repository: each is a field of an environment record
        or an argument of the call, and every theorem quantifies over them.
      - Timestamps ([created_at], [updated_at]) and [print] output are left
        out: no modelled operation reads them. *)

From Stdlib Require Import ZArith Ascii String DecimalString DecimalZ.
From stdpp Require Import gmap list strings.

Local Open Scope string_scope.

(** ** Python values, text and exceptions *)

Module Py.

Inductive exn_class : Set :=
| ValueError | TypeError | KeyError | IndexError | DoesNotExist
| IntegrityError | DataError
| ApiError.  (* any other subclass of [Exception], e.g. a network fault *)

(** An exception instance; [exn_msg] is what [str(e)] gives. *)
Record exn : Set := Exn { exn_cls : exn_class; exn_msg : string }.

Inductive result (A : Type) : Type :=
| Ok (a : A)
| Raise (e : exn).
Arguments Ok {A} a.
Arguments Raise {A} e.

Definition bind {A B} (m : result A) (k : A -> result B) : result B :=
  match m with
  | Ok a => k a
  | Raise e => Raise e
  end.

(** [try: body  except Exception as e: handler e] *)
Definition try_except {A} (body : result A) (handler : exn -> result A)
  : result A :=
  match body with
  | Ok a => Ok a
  | Raise e => handler e
  end.

Definition raises {A} (m : result A) : Prop := exists e, m = Raise e.

Fixpoint mapM {A B} (f : A -> result B) (l : list A) : result (list B) :=
  match l with
  | [] => Ok []
  | x :: l' =>
      bind (f x) (fun y => bind (mapM f l') (fun ys => Ok (y :: ys)))
  end.

(** [sep.join(l)] *)
Fixpoint join (sep : string) (l : list string) : string :=
  match l with
  | [] => ""
  | [x] => x
  | x :: l' => x +:+ sep +:+ join sep l'
  end.

(** Values found in a [dict[str, Any]] or a JSON field. *)
Inductive value : Set :=
| VNone
| VInt (z : Z)
| VStr (s : string)
| VJson (repr : string)  (* a dict or other non-sliceable object and its [str] *)
| VList (items : list string).  (* a list, each item given by its [repr] *)

Definition str_of_int (z : Z) : string := NilZero.string_of_int (Z.to_int z).

(** [int(s)] for decimal numerals with an optional minus sign, which
    include every string [str] gives for an [int].  The other spellings
    [int] accepts (a plus sign, blanks around, underscores) count as invalid
    here; the mutations only convert ids they wrote with [str]. *)
Definition int_of_str (s : string) : result Z :=
  match NilZero.int_of_string s with
  | Some d => Ok (Z.of_int d)
  | None => Raise (Exn ValueError ("invalid literal for int(): " +:+ s))
  end.

Definition str (v : value) : string :=
  match v with
  | VNone => "None"
  | VInt z => str_of_int z
  | VStr s => s
  | VJson r => r
  | VList items => "[" +:+ join ", " items +:+ "]"
  end.

(** [v[:n]] *)
Definition slice_to (n : nat) (v : value) : result value :=
  match v with
  | VStr s => Ok (VStr (String.substring 0 n s))
  | VNone => Raise (Exn TypeError "'NoneType' object is not subscriptable")
  | VInt _ => Raise (Exn TypeError "'int' object is not subscriptable")
  | VJson _ => Raise (Exn TypeError "unhashable type: 'slice'")
  | VList items => Ok (VList (take n items))
  end.

(** The values [v[:n]] raises on: [None], numbers, dicts. *)
Definition unsliceable (v : value) : Prop :=
  match v with
  | VNone | VInt _ | VJson _ => True
  | VStr _ | VList _ => False
  end.

(** [repr(s)] of a string of ASCII characters: quoted with ['], or with the
    double quote when [s] holds a ['] and no double quote; backslash, the
    quote in use, TAB, LF and CR escaped; other control characters as
    [\xhh]. *)
Definition backslash : ascii := ascii_of_nat 92.
Definition single_quote : ascii := ascii_of_nat 39.
Definition double_quote : ascii := ascii_of_nat 34.

Fixpoint mem_char (c : ascii) (s : string) : bool :=
  match s with
  | EmptyString => false
  | String a s' => Ascii.eqb a c || mem_char c s'
  end.

Definition hex_digit (n : nat) : ascii :=
  nth n (list_ascii_of_string "0123456789abcdef") "0"%char.

Definition repr_char (quote c : ascii) : string :=
  let n := nat_of_ascii c in
  if Ascii.eqb c backslash then String backslash (String backslash EmptyString)
  else if Ascii.eqb c quote then String backslash (String quote EmptyString)
  else if (n =? 9)%nat then String backslash "t"
  else if (n =? 10)%nat then String backslash "n"
  else if (n =? 13)%nat then String backslash "r"
  else if (n <? 32)%nat || (n =? 127)%nat then
    String backslash
      (String "x" (String (hex_digit (n / 16))
                     (String (hex_digit (n mod 16)) EmptyString)))
  else String c EmptyString.

Fixpoint repr_body (quote : ascii) (s : string) : string :=
  match s with
  | EmptyString => EmptyString
  | String c s' => repr_char quote c +:+ repr_body quote s'
  end.

Definition repr_str (s : string) : string :=
  let quote :=
    if mem_char single_quote s && negb (mem_char double_quote s)
    then double_quote else single_quote in
  String quote (repr_body quote s +:+ String quote EmptyString).

Abbreviation dict := (gmap string value).

(** [d.get(k, dflt)] and [d.get(k)] *)
Definition get_default (d : dict) (k : string) (dflt : value) : value :=
  default dflt (d !! k).
Definition get (d : dict) (k : string) : value := default VNone (d !! k).

(** [str.isspace] on ASCII: TAB..CR, FS..US and the space. *)
Definition isspace (c : ascii) : bool :=
  let n := nat_of_ascii c in
  ((9 <=? n)%nat && (n <=? 13)%nat) || ((28 <=? n)%nat && (n <=? 32)%nat).

Fixpoint lstrip (s : string) : string :=
  match s with
  | EmptyString => EmptyString
  | String c s' => if isspace c then lstrip s' else s
  end.

Fixpoint rstrip (s : string) : string :=
  match s with
  | EmptyString => EmptyString
  | String c s' =>
      match rstrip s' with
      | EmptyString => if isspace c then EmptyString else String c EmptyString
      | r => String c r
      end
  end.

(** [s.strip()] *)
Definition strip (s : string) : string := rstrip (lstrip s).

(** [s.split(sep)] for a one-character separator. *)
Fixpoint split (sep : ascii) (s : string) : list string :=
  match s with
  | EmptyString => [EmptyString]
  | String c s' =>
      if Ascii.eqb c sep then EmptyString :: split sep s'
      else match split sep s' with
           | [] => [String c EmptyString]
           | w :: ws => String c w :: ws
           end
  end.

(** [l[-1]] *)
Definition last_item (l : list string) : result string :=
  match last l with
  | Some x => Ok x
  | None => Raise (Exn IndexError "list index out of range")
  end.

(** [l[:m]] where [m] is an [int] or [None]. *)
Definition slice_upto {A} (m : option Z) (l : list A) : list A :=
  match m with
  | None => l
  | Some z =>
      if (0 <=? z)%Z then take (Z.to_nat z) l
      else take (length l - Z.to_nat (- z)) l
  end.

(** Truth value of a string, as in [if s:] / [not s]. *)
Definition truthy (s : string) : bool :=
  match s with EmptyString => false | _ => true end.

End Py.

Import Py.

#[export] Instance result_ret : MRet result := @Ok.
#[export] Instance result_bind : MBind result := fun A B k m => Py.bind m k.

(** ** The remote service ([google.generativeai], [mimetypes]) *)

Record GeminiFile : Set := { file_path : string; file_mime : string }.

(** One element of the prompt list given to [generate_content]. *)
Inductive Part : Set :=
| PText (s : string)
| PFile (f : GeminiFile).

(** A chat turn, [{"role": r, "parts": [..]}]. *)
Record Turn : Set := { role : string; parts : list string }.

(** The object returned by the service; reading [.text] may raise. *)
Record Response : Type := { text : result string }.

(** What [genai.GenerativeModel(...)] was built with. *)
Record Model : Set := {
  model_name : string;
  generation_config : list (string * string);
  system_instruction : option string
}.

(** The behaviour of everything reached over the network or the file
    system during one request. *)
Record Genai : Type := {
  (* first component of [mimetypes.guess_type(path)] *)
  guess_type : string -> option string;
  (* [genai.upload_file(path, mime_type=m)] *)
  upload_file : string -> string -> result GeminiFile;
  (* [model.generate_content(parts)] *)
  generate_content : Model -> list Part -> result Response;
  (* [model.start_chat(history=h).send_message(q)] *)
  send_message : Model -> list Turn -> string -> result Response
}.

(** ** [gemini_client.py] *)

Module GeminiClient.

(** [django.conf.settings]: the attribute may be missing. *)
Record Settings : Set := { GEMINI_API_KEY : option string }.

Record t : Set := { base_config : list (string * string) }.

Definition init (settings : Settings) : result t :=
  let api_key := default "" (GEMINI_API_KEY settings) in
  if negb (truthy api_key)
  then Raise (Exn ValueError "GEMINI_API_KEY not configured in settings")
  else Ok {| base_config :=
               [("temperature", "0.7"); ("top_p", "0.95"); ("top_k", "40");
                ("max_output_tokens", "8192");
                ("response_mime_type", "text/plain")] |}.

Definition _get_model (self : t) (model_name : string)
    (generation_config : option (list (string * string)))
    (system_instruction : option string) : Model :=
  let config :=
    match generation_config with
    | Some (c :: cs) => c :: cs
    | _ => base_config self
    end in
  match system_instruction with
  | Some (String a s) =>
      {| model_name := model_name; generation_config := config;
         system_instruction := Some (String a s) |}
  | _ =>
      {| model_name := model_name; generation_config := config;
         system_instruction := None |}
  end.

Definition _process_uploaded_file (g : Genai) (file_path : string)
  : result GeminiFile :=
  try_except
    (match guess_type g file_path with
     | Some (String a m) => upload_file g file_path (String a m)
     | _ => Raise (Exn ValueError "Could not determine MIME type")
     end)
    (fun e => Raise (Exn ValueError ("Error processing file: " +:+ exn_msg e))).

Definition identify_prompt (gemini_file : GeminiFile) : list Part :=
  [ PText "What object is this? Describe how it might be used";
    PText "Object: The input is a PC hardware Image (any hardware component related to computers)";
    PText ("Description: You are a computer parts expert. Identify PC hardware components from images, "
           +:+ "including processors, graphics cards, motherboards, memory modules, storage devices, and PSUs. "
           +:+ "Focus on specific characteristics like brand logos, form factors, and component features. "
           +:+ "The output should only be the exact name of the device, for example, 'Intel Core i9-10900K' for a processor "
           +:+ "or 'ASUS B560 Motherboard' for a motherboard. If given any other images simply reply with "
           +:+ "'I cannot identify this as a PC hardware component'");
    PText "Object: ";
    PFile gemini_file;
    PText "";
    PText "Description: " ].

(** The [try] block of [identify_hardware_from_image]. *)
Definition identify_try (g : Genai) (self : t) (image_path : string)
  : result string :=
  gemini_file ← _process_uploaded_file g image_path;
  let model := _get_model self "gemini-2.0-flash" None None in
  response ← generate_content g model (identify_prompt gemini_file);
  txt ← text response;
  Ok (strip txt).

Definition identify_hardware_from_image (g : Genai) (self : t)
    (image_path : string) : result string :=
  try_except (identify_try g self image_path)
    (fun e => Ok ("Error processing image: " +:+ exn_msg e)).

(** One line of [products_string]. *)
Definition product_line (p : dict) : result string :=
  descr ← slice_to 100 (get_default p "description" (VStr ""));
  Ok ("Product ID: " +:+ str (get_default p "id" (VStr ""))
      +:+ ", Name: " +:+ str (get_default p "name" (VStr ""))
      +:+ ", Category: " +:+ str (get_default p "category" (VStr ""))
      +:+ ", Description: " +:+ str descr +:+ "...").

Definition newline : string := String (ascii_of_nat 10) EmptyString.

Definition similar_prompt (gemini_file : GeminiFile) (products_string : string)
  : list Part :=
  [ PText ("I have an image of a PC hardware component and a database of products. "
           +:+ "Based on the image, identify the component and suggest the most similar products "
           +:+ "from the database. Return the product IDs of the 3 most relevant matches.");
    PText "Image: ";
    PFile gemini_file;
    PText "Product Database:";
    PText products_string;
    PText "Most similar product IDs (comma separated):" ].

(** [[pid.strip() for pid in text.strip().split(",")]] *)
Definition parse_product_ids (txt : string) : list string :=
  strip <$> split "," (strip txt).

(** [str(p.get("id", ""))] *)
Definition id_str (p : dict) : string := str (get_default p "id" (VStr "")).

(** The remote part of [find_similar_products]: the text of the reply. *)
Definition similar_reply (g : Genai) (self : t) (image_path : string)
    (product_database : list dict) : result string :=
  gemini_file ← _process_uploaded_file g image_path;
  let model := _get_model self "gemini-2.0-flash" None None in
  lines ← mapM product_line product_database;
  let products_string := join newline lines in
  response ← generate_content g model
               (similar_prompt gemini_file products_string);
  text response.

(** The [try] block of [find_similar_products]. *)
Definition find_similar_try (g : Genai) (self : t) (image_path : string)
    (product_database : list dict) : result (list dict) :=
  txt ← similar_reply g self image_path product_database;
  let product_ids := parse_product_ids txt in
  Ok (filter (λ p, id_str p ∈ product_ids) product_database).

Definition find_similar_products (g : Genai) (self : t) (image_path : string)
    (product_database : list dict) : result (list dict) :=
  try_except (find_similar_try g self image_path product_database)
    (fun _ => Ok []).

Definition chat_system_instruction : string :=
  "Act as a professional computer consultant with expertise in both hardware and software. "
  +:+ "Provide accurate and up-to-date recommendations based on the latest technologies and best practices. "
  +:+ "Keep responses concise and answer only the question asked. "
  +:+ "Avoid unnecessary introductions or explanations unless explicitly requested by the user. "
  +:+ "If clarification is needed, ask a short follow-up question. "
  +:+ "Anything not related to computers respond with 'I can't answer that!'".

(** The dict returned by [hardware_chat]. *)
Record ChatResult : Set := { response : string; history : list Turn }.

Definition user_turn (query : string) : Turn :=
  {| role := "user"; parts := [query] |}.
Definition model_turn (answer : string) : Turn :=
  {| role := "model"; parts := [answer] |}.

(** The remote part of [hardware_chat]: the text of the reply. *)
Definition chat_reply (g : Genai) (self : t) (query : string)
    (history : option (list Turn)) : result string :=
  let model := _get_model self "gemini-2.0-flash" None
                 (Some chat_system_instruction) in
  response ← match history with
             | Some (h :: hs) => send_message g model (h :: hs) query
             | _ => generate_content g model [PText query]
             end;
  text response.

Definition hardware_chat (g : Genai) (self : t) (query : string)
    (history : option (list Turn)) : result ChatResult :=
  try_except
    (txt ← chat_reply g self query history;
     Ok {| response := strip txt;
           history :=
             match history with
             | Some (h :: hs) =>
                 (h :: hs) ++ [user_turn query; model_turn (strip txt)]
             | _ => [user_turn query; model_turn (strip txt)]
             end |})
    (fun e =>
       Ok {| response := "Error processing query: " +:+ exn_msg e;
             history := match history with
                        | Some (h :: hs) => h :: hs
                        | _ => []
                        end |}).

(** Vocabulary for the statements below. *)

(** What [hardware_chat] returns, depending on the reply. *)
Definition chat_outcome (g : Genai) (self : t) (query : string)
    (hist : list Turn) : ChatResult :=
  match chat_reply g self query (Some hist) with
  | Ok txt =>
      {| response := strip txt;
         history := hist ++ [user_turn query; model_turn (strip txt)] |}
  | Raise e =>
      {| response := "Error processing query: " +:+ exn_msg e;
         history := hist |}
  end.

(** A path is undeterminable when [guess_type] gives [None] or a falsy
    string, the two cases of [if not mime_type]. *)
Definition undeterminable (g : Genai) (path : string) : Prop :=
  guess_type g path = None \/ guess_type g path = Some "".

(** The ids named by the service for this request; none if the attempt
    failed. *)
Definition replied_ids (g : Genai) (self : t) (image_path : string)
    (product_database : list dict) : list string :=
  match similar_reply g self image_path product_database with
  | Ok txt => parse_product_ids txt
  | Raise _ => []
  end.

(** The ids of [l], read in order, occur in that order in [ids]: what it
    means for a result list to follow the order of the reply. *)
Definition follows_response_order (ids : list string) (l : list dict) : Prop :=
  (id_str <$> l) `sublist_of` ids.

End GeminiClient.

(** ** [models.py] and the product catalogue *)

Module Models.

Record HardwareIdentification : Set := {
  hi_image : string;
  hi_result : string
}.

(** A [HardwareChat] instance in memory. *)
Record HardwareChat : Set := {
  chat_id : nat;
  session_id : string;
  history : list Turn
}.

(** Its row in the table, found under its [session_id]. *)
Record ChatRow : Set := { row_id : nat; row_history : list Turn }.

Definition chat_of_row (sid : string) (r : ChatRow) : HardwareChat :=
  {| chat_id := row_id r; session_id := sid; history := row_history r |}.

Definition row_of_chat (c : HardwareChat) : ChatRow :=
  {| row_id := chat_id c; row_history := history c |}.

Record HardwareQuery : Set := {
  chat : nat;  (* foreign key: [chat_id] of the session *)
  question : string;
  answer : string
}.

Record ProductSimilaritySearch : Set := {
  pss_image : string;
  identified_component : string;
  similar_product_ids : list value
}.

(** Modelled from the spec: the catalogue's [Category] and [Product] models
    ([saleor/product/models.py]) are not among the sources; the spec gives a
    product an id, a name, a category name and a description, and the
    mutation reads exactly these attributes. *)
Record Category : Set := { category_pk : Z; category_name : string }.

Record Product : Set := {
  product_id : Z;
  product_name : string;
  product_category : option Category;
  product_description : value
}.

(** The calls made on the model managers and instances, in order. *)
Inductive DbOp : Set :=
| ChatGet (sid : string)
| ChatAll
| ChatCreate (sid : string)
| ChatSave (sid : string)
| QueryCreate (chat : nat)
| IdentificationCreate
| SearchCreate
| ProductAll
| ProductFilterCategory (c : Z)
| ProductFilterIdIn (ids : list Z).

(** The tables. [session_id] is declared [unique=True], so the chat table is
    a finite map from session id to row; [Product.id] is a primary key, see
    [pk_unique]. *)
Record Db : Type := {
  identifications : list HardwareIdentification;
  chats : gmap string ChatRow;
  next_chat_id : nat;
  queries : list HardwareQuery;
  searches : list ProductSimilaritySearch;
  products : list Product;
  db_log : list DbOp
}.

Definition log (op : DbOp) (db : Db) : Db :=
  {| identifications := identifications db; chats := chats db;
     next_chat_id := next_chat_id db; queries := queries db;
     searches := searches db; products := products db;
     db_log := db_log db ++ [op] |}.

Definition set_chats (m : gmap string ChatRow) (n : nat) (db : Db) : Db :=
  {| identifications := identifications db; chats := m;
     next_chat_id := n; queries := queries db;
     searches := searches db; products := products db;
     db_log := db_log db |}.

(** Primary keys of the product table are pairwise distinct. *)
Definition pk_unique (db : Db) : Prop := NoDup (product_id <$> products db).

(** [HardwareChat.objects.get(session_id=sid)] *)
Definition chat_get (sid : string) (db : Db) : Db * result HardwareChat :=
  (log (ChatGet sid) db,
   match chats db !! sid with
   | Some r => Ok (chat_of_row sid r)
   | None =>
       Raise (Exn DoesNotExist "HardwareChat matching query does not exist.")
   end).

(** [HardwareChat.objects.create(session_id=sid, history=[])] *)
Definition chat_create (sid : string) (db : Db) : result (Db * HardwareChat) :=
  match chats db !! sid with
  | Some _ =>
      Raise (Exn IntegrityError
               "duplicate key value violates unique constraint")
  | None =>
      let c := {| chat_id := next_chat_id db; session_id := sid;
                  history := [] |} in
      Ok (log (ChatCreate sid)
            (set_chats (<[sid := row_of_chat c]> (chats db))
               (S (next_chat_id db)) db), c)
  end.

(** [chat_session.save()]: the row of this instance is overwritten. *)
Definition chat_save (c : HardwareChat) (db : Db) : Db :=
  log (ChatSave (session_id c))
    (set_chats (<[session_id c := row_of_chat c]> (chats db))
       (next_chat_id db) db).

(** [HardwareQuery.objects.create(chat=c, question=q, answer=a)] *)
Definition query_create (c : HardwareChat) (q a : string) (db : Db) : Db :=
  log (QueryCreate (chat_id c))
    {| identifications := identifications db; chats := chats db;
       next_chat_id := next_chat_id db;
       queries := queries db ++
                  [{| chat := chat_id c; question := q; answer := a |}];
       searches := searches db; products := products db;
       db_log := db_log db |}.

(** The [image] columns are [ImageField]s without [max_length]: the column
    is [varchar(100)], and [create] does not validate, so the database
    refuses a longer path. *)
Definition image_max_length : nat := 100.

Definition image_too_long : exn :=
  Exn DataError "value too long for type character varying(100)".

(** [HardwareIdentification.objects.create(image=i, result=r)] *)
Definition identification_create (i r : string) (db : Db)
  : result (Db * HardwareIdentification) :=
  if (String.length i <=? image_max_length)%nat then
    let row := {| hi_image := i; hi_result := r |} in
    Ok (log IdentificationCreate
          {| identifications := identifications db ++ [row];
             chats := chats db;
             next_chat_id := next_chat_id db; queries := queries db;
             searches := searches db; products := products db;
             db_log := db_log db |}, row)
  else Raise image_too_long.

(** [ProductSimilaritySearch.objects.create(...)] *)
Definition search_create (i c : string) (ids : list value) (db : Db)
  : result (Db * ProductSimilaritySearch) :=
  if (String.length i <=? image_max_length)%nat then
    let row := {| pss_image := i; identified_component := c;
                  similar_product_ids := ids |} in
    Ok (log SearchCreate
          {| identifications := identifications db; chats := chats db;
             next_chat_id := next_chat_id db; queries := queries db;
             searches := searches db ++ [row]; products := products db;
             db_log := db_log db |}, row)
  else Raise image_too_long.

(** [Product.objects.all()], optionally [.filter(category_id=c)], iterated. *)
Definition products_all (db : Db) : Db * list Product :=
  (log ProductAll db, products db).

Definition in_category (c : Z) (p : Product) : Prop :=
  category_pk <$> product_category p = Some c.

#[export] Instance in_category_dec c p : Decision (in_category c p) :=
  decide (category_pk <$> product_category p = Some c).

Definition products_in_category (c : Z) (db : Db) : Db * list Product :=
  (log (ProductFilterCategory c) db, filter (in_category c) (products db)).

(** The integer a value of an [id__in] list stands for; [None] entries are
    dropped by the lookup. *)
Definition pk_of_value (v : value) : result (option Z) :=
  match v with
  | VNone => Ok None
  | VInt z => Ok (Some z)
  | VStr s => z ← int_of_str s; Ok (Some z)
  | VJson _ =>
      Raise (Exn TypeError "Field 'id' expected a number but got a dict")
  | VList _ =>
      Raise (Exn TypeError "Field 'id' expected a number but got a list")
  end.

(** [list(Product.objects.filter(id__in=ids))] *)
Definition products_id_in (ids : list value) (db : Db)
  : result (Db * list Product) :=
  pks ← mapM pk_of_value ids;
  let keys := omap id pks in
  Ok (log (ProductFilterIdIn keys) db,
      filter (λ p, product_id p ∈ keys) (products db)).

End Models.

(** ** [schema.py]: the three mutations *)

Module Schema.
Import Models.

(** A field of a GraphQL input object: left out, [null], or given. *)
Inductive arg (A : Type) : Type :=
| Absent
| Null
| Given (a : A).
Arguments Absent {A}.
Arguments Null {A}.
Arguments Given {A} a.

(** [input.get(k)] and [input.get(k, dflt)] *)
Definition arg_get {A} (a : arg A) : option A :=
  match a with Given x => Some x | _ => None end.
Definition arg_get_default {A} (a : arg A) (dflt : A) : option A :=
  match a with Given x => Some x | Null => None | Absent => Some dflt end.

Record UploadedFile : Set := { name : string; content : string }.

(** What one request sees besides the database: its uploads, the settings,
    the remote service, the file storage, and the value that
    [str(uuid.uuid4())] takes in it (each mutation draws at most one). *)
Record Context : Type := {
  FILES : gmap string UploadedFile;
  settings : GeminiClient.Settings;
  genai : Genai;
  storage_save : string -> string -> result string;
  storage_path : string -> result string;
  (* the ORM's conversion of a textual key to the integer key column *)
  to_pk : string -> result Z;
  uuid4 : string
}.

Definition files_get (ctx : Context) (key : string) : result UploadedFile :=
  match FILES ctx !! key with
  | Some f => Ok f
  | None => Raise (Exn KeyError (repr_str key))  (* [str(KeyError(key))] *)
  end.

Module IdentifyHardwareImage.

Record payload : Set := { identification : HardwareIdentification }.

Definition perform_mutation (ctx : Context) (db : Db) (image : string)
  : result (Db * payload) :=
  image_file ← files_get ctx image;
  let image_name := uuid4 ctx +:+ "_" +:+ name image_file in
  path ← storage_save ctx ("hw/" +:+ image_name) (content image_file);
  full_path ← storage_path ctx path;
  client ← GeminiClient.init (settings ctx);
  res ← GeminiClient.identify_hardware_from_image (genai ctx) client full_path;
  '(db1, row) ← identification_create path res db;
  Ok (db1, {| identification := row |}).

End IdentifyHardwareImage.

Module HardwareChatMessage.

Record input : Set := { in_session_id : arg string; in_query : string }.

Record payload : Set := { chat : HardwareChat; response : string }.

(** The [if session_id: ... else: ...] statement: the session the call works
    on and the history it starts from. *)
Definition resolve_session (ctx : Context) (db : Db)
    (sid_arg : option string)
  : result (Db * HardwareChat * list Turn) :=
  match sid_arg with
  | Some (String a s) =>
      let sid := String a s in
      match chat_get sid db with
      | (db1, Ok chat_session) =>
          Ok (db1, chat_session, history chat_session)
      | (db1, Raise e) =>
          match exn_cls e with
          | DoesNotExist =>
              (* [print(HardwareChat.objects.all())] evaluates the query *)
              let db1 := log ChatAll db1 in
              '(db2, chat_session) ← chat_create (uuid4 ctx) db1;
              Ok (db2, chat_session, [])
          | _ => Raise e
          end
      end
  | _ =>
      '(db1, chat_session) ← chat_create (uuid4 ctx) db;
      Ok (db1, chat_session, [])
  end.

Definition perform_mutation (ctx : Context) (db : Db) (inp : input)
  : result (Db * payload) :=
  let sid_arg := arg_get (in_session_id inp) in
  let query := in_query inp in
  client ← GeminiClient.init (settings ctx);
  '(db1, chat_session, hist) ← resolve_session ctx db sid_arg;
  res ← GeminiClient.hardware_chat (genai ctx) client query (Some hist);
  let chat_session :=
    {| chat_id := chat_id chat_session;
       session_id := session_id chat_session;
       history := GeminiClient.history res |} in
  let db2 := chat_save chat_session db1 in
  let db3 := query_create chat_session query (GeminiClient.response res) db2 in
  Ok (db3, {| chat := chat_session; response := GeminiClient.response res |}).

End HardwareChatMessage.

Module FindSimilarProducts.

Record input : Set := { in_category_id : arg string; in_max_results : arg Z }.

Record payload : Set := {
  product_search : ProductSimilaritySearch;
  similar_products : list Product
}.

(** The dict built for one product of the query. *)
Definition product_dict (product : Product) : dict :=
  {[ "id" := VStr (str_of_int (product_id product));
     "name" := VStr (product_name product);
     "category" := VStr (match product_category product with
                         | Some c => category_name c
                         | None => ""
                         end);
     "description" := product_description product ]}.

(** [Product.objects.all()], narrowed by [category_id] when it is truthy. *)
Definition candidates (ctx : Context) (db : Db) (category_id : option string)
  : result (Db * list Product) :=
  match category_id with
  | Some (String a s) =>
      c ← to_pk ctx (String a s);
      Ok (products_in_category c db)
  | _ => Ok (products_all db)
  end.

Definition perform_mutation (ctx : Context) (db : Db) (image : string)
    (inp : input) : result (Db * payload) :=
  image_file ← files_get ctx image;
  ext ← last_item (split "." (name image_file));
  let image_name := uuid4 ctx +:+ "." +:+ ext in
  path ← storage_save ctx ("pss/" +:+ image_name) (content image_file);
  full_path ← storage_path ctx path;
  let category_id := arg_get (in_category_id inp) in
  let max_results := arg_get_default (in_max_results inp) 3%Z in
  '(db1, products_query) ← candidates ctx db category_id;
  let product_database := product_dict <$> products_query in
  client ← GeminiClient.init (settings ctx);
  hardware_id_result ←
    GeminiClient.identify_hardware_from_image (genai ctx) client full_path;
  similar_products_data ←
    GeminiClient.find_similar_products (genai ctx) client full_path
      product_database;
  let similar_products_data := slice_upto max_results similar_products_data in
  let product_ids := (λ item, get item "id") <$> similar_products_data in
  '(db2, product_search) ←
    search_create path hardware_id_result product_ids db1;
  '(db3, similar_products) ← products_id_in product_ids db2;
  Ok (db3, {| product_search := product_search;
              similar_products := similar_products |}).

End FindSimilarProducts.

End Schema.


(** ** Sequences of chat requests *)

Module Session.
Import GeminiClient Models Schema Schema.HardwareChatMessage.

(** A chat-message request for [sid]. *)
Definition request (sid : arg string) (query : string) : input :=
  {| in_session_id := sid; in_query := query |}.







(** The session argument is supplied but does not resolve. *)
Definition unresolved (db : Db) (sid : string) : Prop :=
  sid ≠ "" /\ chats db !! sid = None.

(** The API key is configured, so [GeminiClient()] can be built. *)
Definition configured (ctx : Context) : Prop :=
  exists client, GeminiClient.init (settings ctx) = Ok client.

(** The session instance after the call stored [res]. *)
Definition updated (c : HardwareChat) (res : ChatResult) : HardwareChat :=
  {| chat_id := chat_id c; session_id := session_id c;
     history := GeminiClient.history res |}.

(** The database and payload once the session is known. *)
Definition finish (db1 : Db) (c : HardwareChat) (query : string)
    (res : ChatResult) : Db * payload :=
  (query_create (updated c res) query (GeminiClient.response res)
     (chat_save (updated c res) db1),
   {| chat := updated c res; response := GeminiClient.response res |}).

End Session.

(** ** Vocabulary for the similarity search *)

Module Similar.
Import GeminiClient Models Schema Schema.FindSimilarProducts.

(** The value stored for a product in [similar_product_ids]. *)
Definition id_value (p : Product) : value := VStr (str_of_int (product_id p)).

(** The products of [cands] whose id, as text, is among [ids]; in the order
    of [cands]. *)
Definition matched (ids : list string) (cands : list Product) : list Product :=
  filter (λ p, str_of_int (product_id p) ∈ ids) cands.

(** The [max_results] the mutation works with. *)
Definition limit (inp : input) : option Z :=
  arg_get_default (in_max_results inp) 3%Z.

End Similar.

(** ** Concrete scenarios *)

Module Scenario.
Import GeminiClient Models Schema.

(** A service that accepts every file and answers every prompt with [reply]. *)
Definition answering (reply : string) : Genai :=
  {| guess_type := fun _ => Some "image/png";
     upload_file := fun p m => Ok {| file_path := p; file_mime := m |};
     generate_content := fun _ _ => Ok {| text := Ok reply |};
     send_message := fun _ _ _ => Ok {| text := Ok reply |} |}.

(** The same service seen through a path whose media type is unknown. *)
Definition no_mime (reply : string) : Genai :=
  {| guess_type := fun _ => None;
     upload_file := upload_file (answering reply);
     generate_content := generate_content (answering reply);
     send_message := send_message (answering reply) |}.

(** A service that is unreachable. *)
Definition offline : Genai :=
  {| guess_type := fun _ => Some "image/png";
     upload_file := fun p m => Ok {| file_path := p; file_mime := m |};
     generate_content := fun _ _ => Raise (Exn ApiError "503 unavailable");
     send_message := fun _ _ _ => Raise (Exn ApiError "503 unavailable") |}.

Definition client : GeminiClient.t :=
  {| base_config :=
       [("temperature", "0.7"); ("top_p", "0.95"); ("top_k", "40");
        ("max_output_tokens", "8192");
        ("response_mime_type", "text/plain")] |}.

Definition candidate (i name : string) : dict :=
  {[ "id" := VStr i; "name" := VStr name; "category" := VStr "GPU";
     "description" := VStr "a graphics card" ]}.

Definition two_candidates : list dict :=
  [candidate "1" "RTX 3060"; candidate "2" "RX 6600"].

(** A request context: one upload under key "0", a configured key, local
    storage, and the uuid drawn in it. *)
Definition context (g : Genai) (uuid : string) : Context :=
  {| FILES := {[ "0" := {| name := "gpu.png"; content := "PNG" |} ]};
     settings := {| GEMINI_API_KEY := Some "secret" |};
     genai := g;
     storage_save := fun n _ => Ok n;
     storage_path := fun n => Ok ("/media/" +:+ n);
     to_pk := int_of_str;
     uuid4 := uuid |}.

Definition gpu : Category := {| category_pk := 7; category_name := "GPU" |}.

Definition product (i : Z) (n : string) : Product :=
  {| product_id := i; product_name := n; product_category := Some gpu;
     product_description := VStr "a graphics card" |}.

Definition catalogue : list Product :=
  [product 1 "RTX 3060"; product 2 "RX 6600"; product 3 "Arc A750"].

Definition shop_db : Db :=
  {| identifications := []; chats := ∅; next_chat_id := 1; queries := [];
     searches := []; products := catalogue; db_log := [] |}.

(** Two chat requests in a row: the first opens a session, the second
    continues it under the id the first returned. *)
Definition chat_ctx1 : Context := context (answering " A GPU. ") "u-1".
Definition chat_ctx2 : Context := context (answering " Yes. ") "u-2".

Definition db_of (r : result (Db * HardwareChatMessage.payload)) : Db :=
  match r with Ok (d, _) => d | Raise _ => shop_db end.

Definition payload_of (r : result (Db * HardwareChatMessage.payload))
  : HardwareChatMessage.payload :=
  match r with
  | Ok (_, out) => out
  | Raise _ =>
      {| HardwareChatMessage.chat :=
           {| chat_id := 0; session_id := ""; history := [] |};
         HardwareChatMessage.response := "" |}
  end.

Definition first_call : result (Db * HardwareChatMessage.payload) :=
  HardwareChatMessage.perform_mutation chat_ctx1 shop_db
    (Session.request Absent "What is a GPU?").

Definition second_call : result (Db * HardwareChatMessage.payload) :=
  HardwareChatMessage.perform_mutation chat_ctx2 (db_of first_call)
    (Session.request (Given "u-1") "Really?").

(** A similarity search over the whole catalogue, at most one result, the
    service naming product 3 before product 1. *)
Definition similar_ctx : Context := context (answering "3, 1") "u-9".

Definition similar_input : FindSimilarProducts.input :=
  {| FindSimilarProducts.in_category_id := Absent;
     FindSimilarProducts.in_max_results := Given 1%Z |}.

Definition similar_call : result (Db * FindSimilarProducts.payload) :=
  FindSimilarProducts.perform_mutation similar_ctx shop_db "0" similar_input.

Definition stored_ids (r : result (Db * FindSimilarProducts.payload))
  : list value :=
  match r with
  | Ok (_, out) =>
      similar_product_ids (FindSimilarProducts.product_search out)
  | Raise _ => []
  end.

End Scenario.

(** ** [schema.py]: the read side *)

Module Resolvers.
Import Models Schema.

(** [HardwareQueries.resolve_hardware_chat]:
    [HardwareChat.objects.filter(session_id=session_id).first()].  The
    column is unique, so the filter holds at most the row found under the id. *)
Definition resolve_hardware_chat (db : Db) (session_id : string)
  : option HardwareChat :=
  chat_of_row session_id <$> chats db !! session_id.

(** [HardwareChatType.resolve_queries]:
    [HardwareQuery.objects.filter(chat_id=self.id)], in the order of creation
    ([ordering = ["created_at"]]), the order in which [queries] keeps rows. *)
Definition resolve_queries (self : HardwareChat) (db : Db)
  : list HardwareQuery :=
  filter (λ q, chat q = chat_id self) (queries db).

(** [ProductSimilaritySearchType.resolve_similar_products]:
    [Product.objects.filter(id__in=self.similar_product_ids)]. *)
Definition resolve_similar_products (self : ProductSimilaritySearch) (db : Db)
  : result (list Product) :=
  '(_, l) ← products_id_in (similar_product_ids self) db; Ok l.

End Resolvers.

(** ** Vocabulary on text *)

Module Text.

(** The character [c] occurs in [s]. *)
Definition has_char (c : ascii) (s : string) : Prop :=
  c ∈ list_ascii_of_string s.

(** How often [c] occurs in [s]. *)
Fixpoint count_char (c : ascii) (s : string) : nat :=
  match s with
  | EmptyString => 0
  | String a s' => (if Ascii.eqb a c then 1 else 0) + count_char c s'
  end.

(** [s] is blank: [s.strip()] is empty. *)
Definition blank (s : string) : Prop := strip s = "".

(** [name.split('.')[-1]]: what follows the last dot, the whole name if it
    has none. *)
Definition extension (name : string) : string :=
  default "" (last (split "." name)).

End Text.

(** ** Vocabulary on the database *)

Module Frame.
Import Models Schema.

(** The tables the chat mutation has no business with are the same in [db]
    and [db']. *)
Definition same_other_tables (db db' : Db) : Prop :=
  identifications db' = identifications db /\
  searches db' = searches db /\
  products db' = products db.

(** The session argument resolves in [db]. *)
Definition resolves (db : Db) (sid : option string) : Prop :=
  exists s row, sid = Some s /\ s ≠ "" /\ chats db !! s = Some row.

(** The row [HardwareQuery.objects.create] writes for a call. *)
Definition query_row (c : HardwareChat) (question answer : string)
  : HardwareQuery :=
  {| chat := chat_id c; question := question; answer := answer |}.

End Frame.

(** ** Vocabulary on the similarity search, continued *)

Module Kept.
Import GeminiClient Models Schema Schema.FindSimilarProducts Similar.

(** The products kept by a call: the matching candidates, cut by the limit. *)
Definition kept_products (ctx : Context) (client : GeminiClient.t)
    (full_path : string) (inp : input) (cands : list Product) : list Product :=
  slice_upto (limit inp)
    (matched (replied_ids (genai ctx) client full_path (product_dict <$> cands))
       cands).

(** The path under which the similarity search stores an upload. *)
Definition pss_name (ctx : Context) (f : UploadedFile) : string :=
  "pss/" +:+ (uuid4 ctx +:+ "." +:+ Text.extension (name f)).


(** The database once [row] is appended to the search table. *)
Definition with_search (row : ProductSimilaritySearch) (db : Db) : Db :=
  log SearchCreate
    {| identifications := identifications db; chats := chats db;
       next_chat_id := next_chat_id db; queries := queries db;
       searches := searches db ++ [row]; products := products db;
       db_log := db_log db |}.

(** The stored path fits the [image] column. *)
Definition fits_image_column (path : string) : Prop :=
  (String.length path <= image_max_length)%nat.

(** The chat side of the database is the same in [db] and [db']. *)
Definition same_chat_tables (db db' : Db) : Prop :=
  chats db' = chats db /\ queries db' = queries db.

End Kept.

(** ** Further scenarios *)

Module Scenario2.
Import GeminiClient Models Schema.

(** The upload endpoint is out of quota; everything else answers. *)
Definition upload_down : Genai :=
  {| guess_type := fun _ => Some "image/png";
     upload_file := fun _ _ => Raise (Exn ApiError "429 quota exceeded");
     generate_content := generate_content (Scenario.answering "RTX 3060");
     send_message := send_message (Scenario.answering "RTX 3060") |}.

(** Only the conversation endpoint answers. *)
Definition chat_only (reply : string) : Genai :=
  {| guess_type := fun _ => Some "image/png";
     upload_file := upload_file (Scenario.answering reply);
     generate_content := fun _ _ => Raise (Exn ApiError "503 unavailable");
     send_message := fun _ _ _ => Ok {| text := Ok reply |} |}.

(** A candidate whose description is a JSON document, and one without id. *)
Definition json_candidate : dict :=
  {[ "id" := VStr "3"; "name" := VStr "Arc A750"; "category" := VStr "GPU";
     "description" := VJson "{'blocks': []}" ]}.

Definition no_id_candidate : dict :=
  {[ "name" := VStr "mystery board"; "description" := VStr "" ]}.

(** The id a client sends, and a request in which [uuid4] draws it. *)
Definition colliding_id : string := "7c9e6679-7425-40de-944b-e07fc1f90ae7".

Definition colliding_ctx : Context :=
  Scenario.context (Scenario.answering " A GPU. ") colliding_id.

(** A candidate whose description is a list. *)
Definition list_candidate : dict :=
  {[ "id" := VStr "5"; "name" := VStr "RX 7600";
     "description" := VList ["'8 GB'"; "'PCIe 4.0'"] ]}.



(** A request context without API key. *)
Definition unconfigured (g : Genai) (uuid : string) : Context :=
  {| FILES := FILES (Scenario.context g uuid);
     settings := {| GEMINI_API_KEY := None |};
     genai := g;
     storage_save := storage_save (Scenario.context g uuid);
     storage_path := storage_path (Scenario.context g uuid);
     to_pk := int_of_str;
     uuid4 := uuid |}.

(** A catalogue in which one product has a JSON description. *)
Definition json_product : Product :=
  {| product_id := 4; product_name := "B650 board";
     product_category := None;
     product_description := VJson "{'blocks': []}" |}.

Definition json_db : Db :=
  {| identifications := []; chats := ∅; next_chat_id := 1; queries := [];
     searches := []; products := (Scenario.catalogue ++ [json_product])%list;
     db_log := [] |}.

End Scenario2.

(** ** Properties of the adapter *)

Module GeminiClientFacts.
Import GeminiClient.

Lemma try_except_ok {A} (body : result A) (handler : exn -> result A) a :
  body = Ok a -> try_except body handler = Ok a.
Proof. intros ->. reflexivity. Qed.

Lemma try_except_raise {A} (body : result A) (handler : exn -> result A) e :
  body = Raise e -> try_except body handler = handler e.
Proof. intros ->. reflexivity. Qed.

Lemma bind_ok {A B} (m : result A) (k : A -> result B) b :
  m ≫= k = Ok b <-> exists a, m = Ok a /\ k a = Ok b.
Proof.
  destruct m as [a|e]; simpl; split.
  - intros H. exists a. auto.
  - intros (a' & [= <-] & H). exact H.
  - discriminate.
  - intros (a' & [=] & _).
Qed.

Lemma process_undeterminable g path :
  undeterminable g path ->
  _process_uploaded_file g path =
    Raise (Exn ValueError "Error processing file: Could not determine MIME type").
Proof.
  unfold _process_uploaded_file. intros [-> | ->]; reflexivity.
Qed.

(** The outcomes of the [try] block of [identify_hardware_from_image]. *)
Lemma identify_try_ok g self path s :
  identify_try g self path = Ok s <->
  exists f r txt,
    _process_uploaded_file g path = Ok f /\
    generate_content g (_get_model self "gemini-2.0-flash" None None)
      (identify_prompt f) = Ok r /\
    text r = Ok txt /\ s = strip txt.
Proof.
  unfold identify_try. rewrite bind_ok. split.
  - intros (f & Hf & H). apply bind_ok in H as (r & Hr & H).
    apply bind_ok in H as (txt & Ht & [= <-]). eauto 10.
  - intros (f & r & txt & Hf & Hr & Ht & ->). exists f. split; [done|].
    apply bind_ok. exists r. split; [done|].
    apply bind_ok. exists txt. done.
Qed.

Lemma find_similar_try_ok g self path db l :
  find_similar_try g self path db = Ok l <->
  exists txt,
    similar_reply g self path db = Ok txt /\
    l = filter (λ p, id_str p ∈ parse_product_ids txt) db.
Proof.
  unfold find_similar_try. rewrite bind_ok. split.
  - intros (txt & Ht & [= <-]). eauto.
  - intros (txt & Ht & ->). eauto.
Qed.

(** With no id named, no candidate is selected. *)
Lemma filter_no_ids (db : list dict) :
  filter (λ p, id_str p ∈ ([] : list string)) db = [].
Proof.
  induction db as [|p db IH]; [done|].
  rewrite filter_cons. destruct (decide _) as [H|_]; [|exact IH].
  by apply elem_of_nil in H.
Qed.

(** [find_similar_products] is a filter of the candidate list, in the
    candidates' order, whatever the service does. *)
Lemma find_similar_is_filter g self path db :
  find_similar_products g self path db =
    Ok (filter (λ p, id_str p ∈ replied_ids g self path db) db).
Proof.
  unfold find_similar_products, find_similar_try, replied_ids.
  destruct (similar_reply g self path db) as [txt|e]; simpl.
  - reflexivity.
  - by rewrite filter_no_ids.
Qed.

(** Whatever the service does, [find_similar_products] returns, and what it
    returns is the candidate list with some entries struck out. *)
Lemma find_similar_sublist g self path db :
  exists l, find_similar_products g self path db = Ok l /\ l `sublist_of` db.
Proof.
  eexists. split; [apply find_similar_is_filter|]. apply sublist_filter.
Qed.

(** C7. [identify_hardware_from_image] never raises: for every behaviour
    of [mimetypes] and of the service and for every path it returns a string.
    When the media type is known and upload, generation and reading the text
    all succeed, the string is the trimmed text of the reply; when any of
    them fails, it is "Error processing image: " followed by the message of
    the exception that stopped it (the upload step's own
    "Error processing file: " text included). *)
Theorem identify_always_returns_string g self path :
  ~ raises (identify_hardware_from_image g self path) /\
  identify_hardware_from_image g self path =
    Ok (match guess_type g path with
        | Some (String a m) =>
            match upload_file g path (String a m) with
            | Ok f =>
                match generate_content g
                        (_get_model self "gemini-2.0-flash" None None)
                        (identify_prompt f) with
                | Ok r =>
                    match text r with
                    | Ok txt => strip txt
                    | Raise e => "Error processing image: " +:+ exn_msg e
                    end
                | Raise e => "Error processing image: " +:+ exn_msg e
                end
            | Raise e =>
                "Error processing image: Error processing file: "
                +:+ exn_msg e
            end
        | _ =>
            "Error processing image: Error processing file: Could not determine MIME type"
        end).
Proof.
  assert (forall (m : result string) s, m = Ok s -> ~ raises m) as Hok.
  { intros m s -> [e He]. discriminate. }
  unfold identify_hardware_from_image, identify_try, _process_uploaded_file.
  destruct (guess_type g path) as [[|a m]|];
    [split; [by eapply Hok|reflexivity]| |split; [by eapply Hok|reflexivity]].
  destruct (upload_file g path (String a m)) as [f|e]; simpl;
    [|split; [by eapply Hok|reflexivity]].
  destruct (generate_content g _ (identify_prompt f)) as [r|e]; simpl;
    [|split; [by eapply Hok|reflexivity]].
  destruct (text r) as [txt|e]; simpl; split; (by eapply Hok) || reflexivity.
Qed.

(** C2 (amended). On a path whose media type cannot be determined,
    [_process_uploaded_file] raises a [ValueError], and
    [identify_hardware_from_image] catches it: it returns the string
    "Error processing image: Error processing file: Could not determine MIME
    type" instead of raising. *)
Theorem identify_undeterminable_returns_error_string g self path :
  undeterminable g path ->
  _process_uploaded_file g path =
    Raise (Exn ValueError "Error processing file: Could not determine MIME type")
  /\ identify_hardware_from_image g self path =
       Ok "Error processing image: Error processing file: Could not determine MIME type"
  /\ ~ raises (identify_hardware_from_image g self path).
Proof.
  intros H. pose proof (process_undeterminable g path H) as Hp.
  assert (identify_hardware_from_image g self path =
          Ok "Error processing image: Error processing file: Could not determine MIME type")
    as Hi.
  { unfold identify_hardware_from_image, identify_try. rewrite Hp.
    reflexivity. }
  split; [exact Hp|]. split; [exact Hi|].
  intros [e He]. rewrite Hi in He. discriminate.
Qed.

Lemma identify_undeterminable_witness :
  undeterminable (Scenario.no_mime "RTX 3060") "upload.bin" /\
  identify_hardware_from_image (Scenario.no_mime "RTX 3060") Scenario.client
    "upload.bin" =
    Ok "Error processing image: Error processing file: Could not determine MIME type".
Proof.
  assert (undeterminable (Scenario.no_mime "RTX 3060") "upload.bin") as H
    by (left; reflexivity).
  split; [exact H|].
  exact (proj1 (proj2 (identify_undeterminable_returns_error_string
                         _ Scenario.client _ H))).
Defined.

(** C2 as stated fails: with an undeterminable media type the operation
    returns a value, it does not raise. *)
Lemma identify_undeterminable_does_not_raise :
  guess_type (Scenario.no_mime "RTX 3060") "upload.bin" = None /\
  ~ raises (identify_hardware_from_image (Scenario.no_mime "RTX 3060")
              Scenario.client "upload.bin").
Proof.
  split; [reflexivity|]. intros [e He]. vm_compute in He. discriminate.
Qed.

(** C8. Whenever the attempt of [find_similar_products] fails, whatever the
    exception, the operation returns the empty list and raises nothing. *)
Theorem find_similar_failure_empty g self path db :
  raises (find_similar_try g self path db) ->
  find_similar_products g self path db = Ok [].
Proof.
  intros [e He]. unfold find_similar_products. rewrite He. reflexivity.
Qed.

Lemma find_similar_failure_empty_witness :
  raises (find_similar_try Scenario.offline Scenario.client "gpu.png"
            Scenario.two_candidates) /\
  find_similar_products Scenario.offline Scenario.client "gpu.png"
    Scenario.two_candidates = Ok [].
Proof.
  assert (raises (find_similar_try Scenario.offline Scenario.client "gpu.png"
                    Scenario.two_candidates)) as H.
  { exists (Exn ApiError "503 unavailable"). vm_compute. reflexivity. }
  split; [exact H|]. exact (find_similar_failure_empty _ _ _ _ H).
Defined.

(** C9. The list returned by [find_similar_products] is a subsequence of the
    candidate list: every returned candidate is one of the input, the
    candidates keep their positions' order, none is repeated beyond its
    occurrences in the input, and a duplicate-free input gives a
    duplicate-free output, however often an id occurs in the reply. *)
Theorem find_similar_subsequence g self path db :
  exists l,
    find_similar_products g self path db = Ok l /\
    l `sublist_of` db /\
    (forall p, p ∈ l -> p ∈ db) /\
    (NoDup db -> NoDup l).
Proof.
  destruct (find_similar_sublist g self path db) as (l & Hl & Hsub).
  exists l. split; [exact Hl|]. split; [exact Hsub|]. split.
  - intros p Hp. eapply sublist_subseteq; eauto.
  - intros Hnd. eapply sublist_NoDup; eauto.
Qed.

Lemma find_similar_subsequence_witness :
  NoDup Scenario.two_candidates /\
  exists l,
    find_similar_products (Scenario.answering "2, 2, 1, 2") Scenario.client
      "gpu.png" Scenario.two_candidates = Ok l /\ NoDup l.
Proof.
  assert (NoDup Scenario.two_candidates) as Hnd.
  { apply NoDup_cons. split.
    - intros H%list_elem_of_singleton.
      apply (f_equal (fun d : dict => d !! "id")) in H.
      vm_compute in H. discriminate.
    - apply NoDup_singleton. }
  split; [exact Hnd|].
  destruct (find_similar_subsequence (Scenario.answering "2, 2, 1, 2")
              Scenario.client "gpu.png" Scenario.two_candidates)
    as (l & Hl & _ & _ & H).
  exists l. split; [exact Hl | exact (H Hnd)].
Defined.

(** C5. When the remote part of [hardware_chat] fails with exception [e],
    the call returns a dict whose response is "Error processing query: "
    followed by the message of [e] and whose history is the input history
    unchanged; an absent history ([None]) comes back as the empty list. *)
Theorem hardware_chat_failure g self query hist e :
  chat_reply g self query hist = Raise e ->
  exists r,
    hardware_chat g self query hist = Ok r /\
    response r = "Error processing query: " +:+ exn_msg e /\
    history r = default [] hist /\
    (forall h, hist = Some h -> history r = h).
Proof.
  intros He. unfold hardware_chat. rewrite He. simpl.
  eexists. split; [reflexivity|]. simpl. split; [reflexivity|].
  assert (match hist with Some (h :: hs) => h :: hs | _ => [] end
          = default [] hist) as ->.
  { destruct hist as [[|h hs]|]; reflexivity. }
  split; [reflexivity|]. intros h ->. reflexivity.
Qed.

Lemma hardware_chat_failure_witness :
  exists r,
    hardware_chat Scenario.offline Scenario.client "What is a GPU?"
      (Some [user_turn "hello"; model_turn "hi"]) = Ok r /\
    response r = "Error processing query: 503 unavailable" /\
    history r = [user_turn "hello"; model_turn "hi"].
Proof.
  destruct (hardware_chat_failure Scenario.offline Scenario.client
              "What is a GPU?" (Some [user_turn "hello"; model_turn "hi"])
              (Exn ApiError "503 unavailable") eq_refl)
    as (r & Hr & Hresp & Hhist & _).
  exists r. split; [exact Hr|]. split; [exact Hresp | exact Hhist].
Defined.

End GeminiClientFacts.

(** ** Properties of the chat-message mutation *)

Module ChatFacts.
Import GeminiClient Models Schema Schema.HardwareChatMessage Session.
Import GeminiClientFacts.

(** [hardware_chat] never raises. *)
Lemma hardware_chat_outcome g self query hist :
  hardware_chat g self query (Some hist) = Ok (chat_outcome g self query hist).
Proof.
  unfold hardware_chat, chat_outcome.
  destruct (chat_reply g self query (Some hist)) as [txt|e];
    destruct hist as [|h hs]; reflexivity.
Qed.

Lemma perform_mutation_finish ctx db inp client db1 c hist :
  GeminiClient.init (settings ctx) = Ok client ->
  resolve_session ctx db (arg_get (in_session_id inp)) = Ok (db1, c, hist) ->
  perform_mutation ctx db inp =
    Ok (finish db1 c (in_query inp)
          (chat_outcome (genai ctx) client (in_query inp) hist)).
Proof.
  intros Hinit Hres. unfold perform_mutation. rewrite Hinit. simpl.
  rewrite Hres. simpl. rewrite hardware_chat_outcome. reflexivity.
Qed.

(** A supplied id that resolves: the stored session is reused. *)
Lemma resolve_session_found ctx db sid row :
  sid ≠ "" -> chats db !! sid = Some row ->
  resolve_session ctx db (Some sid) =
    Ok (log (ChatGet sid) db, chat_of_row sid row, row_history row).
Proof.
  intros Hne Hrow. destruct sid as [|a s]; [done|].
  unfold resolve_session, chat_get. rewrite Hrow. reflexivity.
Qed.

(** A supplied id that does not resolve: a session is created under the
    generated id, after the failed lookup. *)
Lemma resolve_session_missing ctx db sid :
  sid ≠ "" -> chats db !! sid = None -> chats db !! uuid4 ctx = None ->
  resolve_session ctx db (Some sid) =
    Ok (log (ChatCreate (uuid4 ctx))
          (set_chats
             (<[uuid4 ctx := {| row_id := next_chat_id db; row_history := [] |}]>
                (chats db))
             (S (next_chat_id db)) (log ChatAll (log (ChatGet sid) db))),
        {| chat_id := next_chat_id db; session_id := uuid4 ctx;
           history := [] |}, []).
Proof.
  intros Hne Hrow Hfresh. destruct sid as [|a s]; [done|].
  unfold resolve_session, chat_get. rewrite Hrow. simpl.
  unfold chat_create. simpl. rewrite Hfresh. reflexivity.
Qed.

(** No usable id: a session is created under the generated id, without any
    lookup. *)
Lemma resolve_session_absent ctx db sid :
  sid = None \/ sid = Some "" -> chats db !! uuid4 ctx = None ->
  resolve_session ctx db sid =
    Ok (log (ChatCreate (uuid4 ctx))
          (set_chats
             (<[uuid4 ctx := {| row_id := next_chat_id db; row_history := [] |}]>
                (chats db))
             (S (next_chat_id db)) db),
        {| chat_id := next_chat_id db; session_id := uuid4 ctx;
           history := [] |}, []).
Proof.
  intros [-> | ->] Hfresh; unfold resolve_session, chat_create;
    rewrite Hfresh; reflexivity.
Qed.

(** The row of the session after [finish]. *)
Lemma finish_lookup db1 c query res :
  chats (finish db1 c query res).1 !! session_id c =
    Some {| row_id := chat_id c; row_history := GeminiClient.history res |}.
Proof. simpl. apply lookup_insert_eq. Qed.

Lemma finish_lookup_ne db1 c query res sid :
  sid ≠ session_id c ->
  chats (finish db1 c query res).1 !! sid = chats db1 !! sid.
Proof. intros H. simpl. by apply lookup_insert_ne. Qed.

Lemma finish_log db1 c query res :
  db_log (finish db1 c query res).1 =
    (db_log db1 ++ [ChatSave (session_id c); QueryCreate (chat_id c)])%list.
Proof. simpl. by rewrite <- app_assoc. Qed.







(** C6 (amended). A chat-message call whose supplied session id does not
    resolve allocates a new session: after the failed lookup a row is created
    under the generated id with an empty history, the chat is run on that
    empty history, and the session returned carries the generated id,
    whatever the supplied id was.  The returned id equals the supplied one
    exactly when [uuid4] produced that very string; otherwise the supplied
    id still resolves to nothing afterwards. *)
Theorem unresolved_session_gets_generated_id ctx db sid query :
  unresolved db sid ->
  chats db !! uuid4 ctx = None ->
  configured ctx ->
  exists db' out client,
    perform_mutation ctx db (request (Given sid) query) = Ok (db', out) /\
    session_id (chat out) = uuid4 ctx /\
    (session_id (chat out) = sid <-> uuid4 ctx = sid) /\
    (uuid4 ctx ≠ sid -> chats db' !! sid = None) /\
    chats db' !! uuid4 ctx = Some (row_of_chat (chat out)) /\
    GeminiClient.init (settings ctx) = Ok client /\
    hardware_chat (genai ctx) client query (Some []) =
      Ok {| GeminiClient.response := response out;
            GeminiClient.history := history (chat out) |} /\
    db_log db' =
      (db_log db ++ [ChatGet sid; ChatAll; ChatCreate (uuid4 ctx);
                     ChatSave (uuid4 ctx); QueryCreate (chat_id (chat out))])%list.
Proof.
  intros [Hne Hmiss] Hfresh [client Hinit].
  eexists _, _, client. split.
  { apply (perform_mutation_finish ctx db (request (Given sid) query) client
             _ _ _ Hinit (resolve_session_missing ctx db sid Hne Hmiss Hfresh)). }
  simpl. split; [reflexivity|]. split; [reflexivity|]. split.
  { intros Hneq. rewrite lookup_insert_ne by exact Hneq.
    rewrite lookup_insert_ne by exact Hneq. exact Hmiss. }
  split; [apply lookup_insert_eq|]. split; [exact Hinit|]. split.
  { rewrite hardware_chat_outcome.
    by destruct (chat_outcome (genai ctx) client query []). }
  by rewrite <- !app_assoc.
Qed.

Lemma unresolved_session_gets_generated_id_witness :
  unresolved Scenario.shop_db "client-made-id" /\
  exists db' out,
    perform_mutation Scenario.chat_ctx1 Scenario.shop_db
      (request (Given "client-made-id") "What is a GPU?") = Ok (db', out) /\
    session_id (chat out) = "u-1" /\
    chats db' !! "client-made-id" = None.
Proof.
  assert (unresolved Scenario.shop_db "client-made-id") as H0
    by (split; [discriminate | reflexivity]).
  assert (configured Scenario.chat_ctx1) as H2
    by (exists Scenario.client; reflexivity).
  split; [exact H0|].
  destruct (unresolved_session_gets_generated_id Scenario.chat_ctx1
              Scenario.shop_db "client-made-id" "What is a GPU?" H0 eq_refl H2)
    as (db' & out & _ & Hcall & Hid & _ & Hgone & _).
  exists db', out. split; [exact Hcall|]. split; [exact Hid|].
  apply Hgone. discriminate.
Defined.

(** C6 as stated fails. Nothing in the call compares the generated id with
    the supplied one: when [uuid4] yields the string the client sent, which
    did not resolve, the session returned carries exactly the supplied id. *)
Lemma unresolved_session_id_can_come_back :
  unresolved Scenario.shop_db Scenario2.colliding_id /\
  exists db' out,
    perform_mutation Scenario2.colliding_ctx Scenario.shop_db
      (request (Given Scenario2.colliding_id) "What is a GPU?") =
      Ok (db', out) /\
    session_id (chat out) = Scenario2.colliding_id.
Proof.
  split; [split; [discriminate | reflexivity]|].
  destruct (perform_mutation Scenario2.colliding_ctx Scenario.shop_db
              (request (Given Scenario2.colliding_id) "What is a GPU?"))
    as [[db' out]|e] eqn:Hcall; [|vm_compute in Hcall; discriminate].
  exists db', out. split; [reflexivity|].
  vm_compute in Hcall. injection Hcall as _ <-. reflexivity.
Qed.

(** C10. A chat-message call whose session id is the empty string behaves
    exactly as one with no session id (left out or null): when it returns,
    a session has been created under the generated id, which was not stored
    before, and the database saw a create, a save and the query insert, and
    no lookup; it raises only when the API key is not configured or the
    generated id is already taken. *)
Theorem empty_session_id_is_no_session_id ctx db query :
  perform_mutation ctx db (request (Given "") query) =
    perform_mutation ctx db (request Absent query) /\
  perform_mutation ctx db (request (Given "") query) =
    perform_mutation ctx db (request Null query) /\
  match perform_mutation ctx db (request (Given "") query) with
  | Ok (db', out) =>
      session_id (chat out) = uuid4 ctx /\
      chats db !! uuid4 ctx = None /\
      chats db' !! uuid4 ctx = Some (row_of_chat (chat out)) /\
      db_log db' =
        (db_log db ++ [ChatCreate (uuid4 ctx); ChatSave (uuid4 ctx);
                       QueryCreate (chat_id (chat out))])%list
  | Raise e => ~ configured ctx \/ chats db !! uuid4 ctx ≠ None
  end.
Proof.
  split; [reflexivity|]. split; [reflexivity|].
  destruct (GeminiClient.init (settings ctx)) as [client|e] eqn:Hinit.
  - destruct (chats db !! uuid4 ctx) as [row|] eqn:Hfresh.
    + unfold perform_mutation. rewrite Hinit. simpl.
      unfold chat_create. rewrite Hfresh. simpl. right. discriminate.
    + rewrite (perform_mutation_finish ctx db (request (Given "") query)
                 client _ _ _ Hinit
                 (resolve_session_absent ctx db (Some "") (or_intror eq_refl)
                    Hfresh)).
      simpl. split; [reflexivity|]. split; [reflexivity|].
      split; [apply lookup_insert_eq|]. by rewrite <- !app_assoc.
  - unfold perform_mutation. rewrite Hinit. simpl. left.
    intros [client Hc]. rewrite Hinit in Hc. discriminate.
Qed.

End ChatFacts.

(** ** Properties of the find-similar-products mutation *)

Module SimilarFacts.
Import GeminiClient Models Schema Schema.FindSimilarProducts Similar.
Import GeminiClientFacts.

Lemma int_of_str_of_int z : int_of_str (str_of_int z) = Ok z.
Proof.
  unfold int_of_str, str_of_int. rewrite NilZero.isi.
  - by rewrite DecimalZ.of_to.
  - destruct z; simpl; try discriminate.
    intros [= H]. by apply DecimalPos.Unsigned.to_uint_nonnil in H.
  - destruct z; simpl; try discriminate.
    intros [= H]. by apply DecimalPos.Unsigned.to_uint_nonnil in H.
Qed.

Lemma id_str_product_dict p : id_str (product_dict p) = str_of_int (product_id p).
Proof.
  unfold id_str, get_default, product_dict. by rewrite lookup_insert_eq.
Qed.

Lemma get_id_product_dict p : get (product_dict p) "id" = id_value p.
Proof. unfold get, product_dict. by rewrite lookup_insert_eq. Qed.

Lemma filter_fmap {A B} (f : A -> B) (P : B -> Prop)
    `{!∀ y, Decision (P y)} (l : list A) :
  filter P (f <$> l) = f <$> filter (λ x, P (f x)) l.
Proof.
  induction l as [|x l IH]; [done|].
  rewrite fmap_cons, !filter_cons. destruct (decide (P (f x))); simpl;
    by rewrite IH.
Qed.

Lemma slice_upto_fmap {A B} (f : A -> B) m (l : list A) :
  slice_upto m (f <$> l) = f <$> slice_upto m l.
Proof.
  unfold slice_upto. destruct m as [z|]; [|done].
  rewrite length_fmap. destruct (0 <=? z)%Z; by rewrite fmap_take.
Qed.

Lemma slice_upto_sublist {A} m (l : list A) : slice_upto m l `sublist_of` l.
Proof.
  unfold slice_upto. destruct m as [z|]; [|done].
  destruct (0 <=? z)%Z; apply sublist_take.
Qed.

Lemma slice_upto_length {A} (z : Z) (l : list A) :
  (0 <= z)%Z -> (length (slice_upto (Some z) l) ≤ Z.to_nat z)%nat.
Proof.
  intros H. unfold slice_upto.
  destruct (Z.leb_spec 0 z) as [_|?]; [|lia]. rewrite length_take. lia.
Qed.

(** What the adapter returns for the candidates of the mutation. *)
Lemma find_similar_matched g self path cands :
  find_similar_products g self path (product_dict <$> cands) =
    Ok (product_dict <$>
          matched (replied_ids g self path (product_dict <$> cands)) cands).
Proof.
  rewrite find_similar_is_filter, filter_fmap. unfold matched.
  do 2 f_equal; apply list_filter_iff; intros p;
    by rewrite id_str_product_dict.
Qed.

Lemma mapM_fmap_ok {A B C} (f : B -> result C) (g : A -> B) (h : A -> C) l :
  (forall x, f (g x) = Ok (h x)) -> mapM f (g <$> l) = Ok (h <$> l).
Proof.
  intros H. induction l as [|x l IH]; [done|].
  rewrite !fmap_cons. cbn [mapM]. rewrite H, IH. reflexivity.
Qed.

Lemma pk_of_id_value p : pk_of_value (id_value p) = Ok (Some (product_id p)).
Proof.
  unfold id_value, pk_of_value. rewrite int_of_str_of_int. reflexivity.
Qed.

Lemma pks_of_id_values (l : list Product) :
  mapM pk_of_value (id_value <$> l) = Ok (Some <$> (product_id <$> l)).
Proof.
  rewrite <- list_fmap_compose. apply mapM_fmap_ok. apply pk_of_id_value.
Qed.

Lemma omap_id_Some {A} (l : list A) : omap id (Some <$> l) = l.
Proof.
  induction l as [|x l IH]; [done|]. rewrite fmap_cons. cbn [omap list_omap].
  simpl. f_equal. exact IH.
Qed.

(** The candidates are rows of the product table. *)
Lemma candidates_sublist ctx db cat db1 cands :
  candidates ctx db cat = Ok (db1, cands) ->
  cands `sublist_of` products db /\ products db1 = products db.
Proof.
  unfold candidates. destruct cat as [[|a s]|].
  - intros [= <- <-]. done.
  - intros H. apply bind_ok in H as (c & _ & [= <- <-]).
    split; [apply sublist_filter | done].
  - intros [= <- <-]. done.
Qed.

(** What a call of the mutation that returns has done. *)
Lemma perform_mutation_inv ctx db image inp db' out :
  perform_mutation ctx db image inp = Ok (db', out) ->
  exists path full_path db1 cands client label,
    candidates ctx db (arg_get (in_category_id inp)) = Ok (db1, cands) /\
    GeminiClient.init (settings ctx) = Ok client /\
    identify_hardware_from_image (genai ctx) client full_path = Ok label /\
    let ids := replied_ids (genai ctx) client full_path (product_dict <$> cands) in
    let kept := slice_upto (limit inp) (matched ids cands) in
    product_search out =
      {| pss_image := path; identified_component := label;
         similar_product_ids := id_value <$> kept |} /\
    similar_products out =
      filter (λ p, product_id p ∈ product_id <$> kept) (products db).
Proof.
  intros H. unfold perform_mutation in H.
  apply bind_ok in H as (image_file & _ & H).
  apply bind_ok in H as (ext & _ & H).
  apply bind_ok in H as (path & _ & H).
  apply bind_ok in H as (full_path & _ & H).
  apply bind_ok in H as ([db1 cands] & Hc & H).
  apply bind_ok in H as (client & Hinit & H).
  apply bind_ok in H as (label & Hlabel & H).
  apply bind_ok in H as (data & Hdata & H).
  rewrite find_similar_matched in Hdata. injection Hdata as <-.
  fold (limit inp) in H.
  rewrite slice_upto_fmap, <- list_fmap_compose in H.
  rewrite (list_fmap_ext _ id_value) in H
    by (intros; apply get_id_product_dict).
  apply bind_ok in H as ([db2 ps] & Hs & H).
  unfold search_create in Hs.
  destruct (String.length path <=? image_max_length)%nat; [|done].
  injection Hs as <- <-.
  apply bind_ok in H as ([db3 sp] & Hp & [= <- <-]).
  unfold products_id_in in Hp. rewrite pks_of_id_values in Hp.
  cbn [mbind result_bind Py.bind] in Hp. rewrite omap_id_Some in Hp.
  injection Hp as <- <-.
  apply candidates_sublist in Hc as Hsub. destruct Hsub as [_ Hprod].
  exists path, full_path, db1, cands, client, label.
  split; [exact Hc|]. split; [exact Hinit|]. split; [exact Hlabel|].
  simpl. split; [reflexivity|]. by rewrite Hprod.
Qed.

(** Rows with pairwise distinct keys are determined by their key. *)
Lemma NoDup_fmap_eq {A B} (f : A -> B) (l : list A) x y :
  NoDup (f <$> l) -> x ∈ l -> y ∈ l -> f x = f y -> x = y.
Proof.
  induction l as [|a l IH]; [by intros _ ?%elem_of_nil|].
  rewrite fmap_cons. intros [Ha Hnd]%NoDup_cons Hx Hy Hf.
  apply elem_of_cons in Hx as [-> | Hx]; apply elem_of_cons in Hy as [-> | Hy].
  - reflexivity.
  - exfalso. apply Ha. rewrite Hf. by apply list_elem_of_fmap_2.
  - exfalso. apply Ha. rewrite <- Hf. by apply list_elem_of_fmap_2.
  - by apply IH.
Qed.

(** Selecting rows by key gives at most one row per key. *)
Lemma filter_keys_length {A B} `{EqDecision B} (f : A -> B) (keys : list B)
    (l : list A) :
  NoDup (f <$> l) ->
  (length (filter (λ x, f x ∈ keys) l) ≤ length keys)%nat.
Proof.
  intros Hnd. rewrite <- (length_fmap f (filter _ l)).
  apply submseteq_length, NoDup_submseteq.
  - eapply sublist_NoDup; [exact Hnd|]. apply fmap_sublist, sublist_filter.
  - intros k (x & -> & Hx)%list_elem_of_fmap.
    by apply list_elem_of_filter in Hx as [Hk _].
Qed.

(** C3. A find-similar-products call with [max_results = m], [m >= 0],
    returns at most [m] products, and every product it returns is one of
    the candidates that were loaded for the call (all products, or those of
    the requested category); in particular its id is a candidate id. *)
Theorem similar_products_bounded ctx db image inp m db' out :
  pk_unique db ->
  limit inp = Some m ->
  (0 <= m)%Z ->
  perform_mutation ctx db image inp = Ok (db', out) ->
  exists db1 cands,
    candidates ctx db (arg_get (in_category_id inp)) = Ok (db1, cands) /\
    (length (similar_products out) ≤ Z.to_nat m)%nat /\
    (forall p, p ∈ similar_products out -> p ∈ cands) /\
    (forall p, p ∈ similar_products out ->
               product_id p ∈ product_id <$> cands).
Proof.
  intros Hpk Hm Hpos Hcall.
  apply perform_mutation_inv in Hcall
    as (path & full_path & db1 & cands & client & label
        & Hc & _ & _ & _ & Hout).
  rewrite Hm in Hout. exists db1, cands. split; [exact Hc|].
  set (kept := slice_upto (Some m) _) in Hout.
  assert (kept `sublist_of` cands) as Hkept.
  { etrans; [apply slice_upto_sublist | apply sublist_filter]. }
  apply candidates_sublist in Hc as [Hcands _].
  assert (forall p, p ∈ similar_products out -> p ∈ cands) as Hmem.
  { intros p Hp. rewrite Hout in Hp.
    apply list_elem_of_filter in Hp as [Hk Hp].
    apply list_elem_of_fmap in Hk as (q & Hpq & Hq).
    assert (q ∈ cands) as Hqc by (eapply sublist_subseteq; eauto).
    assert (q ∈ products db) as Hqd by (eapply sublist_subseteq; eauto).
    by rewrite (NoDup_fmap_eq product_id (products db) p q Hpk Hp Hqd Hpq). }
  split; [|split; [exact Hmem|]].
  - rewrite Hout. etrans; [apply filter_keys_length, Hpk|].
    rewrite length_fmap. by apply slice_upto_length.
  - intros p Hp. apply list_elem_of_fmap_2. by apply Hmem.
Qed.

Lemma similar_products_bounded_witness :
  pk_unique Scenario.shop_db /\
  limit Scenario.similar_input = Some 1%Z /\
  exists db' out,
    perform_mutation Scenario.similar_ctx Scenario.shop_db "0"
      Scenario.similar_input = Ok (db', out) /\
    (length (similar_products out) ≤ 1)%nat.
Proof.
  assert (pk_unique Scenario.shop_db) as H0.
  { apply (bool_decide_unpack _). by vm_compute. }
  split; [exact H0|]. split; [reflexivity|].
  destruct (perform_mutation Scenario.similar_ctx Scenario.shop_db "0"
              Scenario.similar_input) as [[db' out]|e] eqn:Hcall;
    [|vm_compute in Hcall; discriminate].
  exists db', out. split; [reflexivity|].
  destruct (similar_products_bounded Scenario.similar_ctx Scenario.shop_db
              "0" Scenario.similar_input 1%Z db' out H0 eq_refl
              ltac:(lia) Hcall) as (_ & _ & _ & Hlen & _).
  exact Hlen.
Defined.

(** C1 (amended). The list returned by [find_similar_products] is the
    candidate list filtered by membership of the id in the reply, so it is
    in candidate input order; and the id list stored in the
    [ProductSimilaritySearch] record is the ids of the matching candidates of
    the query, in candidate order, cut by [max_results] (to the first [m]
    for a non-negative [m]). *)
Theorem similar_products_follow_candidate_order :
  (forall g self path pdb,
      find_similar_products g self path pdb =
        Ok (filter (λ p, id_str p ∈ replied_ids g self path pdb) pdb)) /\
  (forall ctx db image inp db' out,
      perform_mutation ctx db image inp = Ok (db', out) ->
      exists full_path db1 cands client,
        candidates ctx db (arg_get (in_category_id inp)) = Ok (db1, cands) /\
        GeminiClient.init (settings ctx) = Ok client /\
        let hits :=
          matched (replied_ids (genai ctx) client full_path
                     (product_dict <$> cands)) cands in
        hits `sublist_of` cands /\
        similar_product_ids (product_search out) =
          id_value <$> slice_upto (limit inp) hits /\
        (forall m, limit inp = Some m -> (0 <= m)%Z ->
           similar_product_ids (product_search out) =
             id_value <$> take (Z.to_nat m) hits)).
Proof.
  split; [apply find_similar_is_filter|].
  intros ctx db image inp db' out Hcall.
  apply perform_mutation_inv in Hcall
    as (path & full_path & db1 & cands & client & label
        & Hc & Hinit & _ & Hsearch & _).
  exists full_path, db1, cands, client.
  split; [exact Hc|]. split; [exact Hinit|]. simpl.
  split; [apply sublist_filter|]. rewrite Hsearch. simpl.
  split; [reflexivity|]. intros m -> Hm. unfold slice_upto.
  destruct (Z.leb_spec 0 m); [reflexivity | lia].
Qed.

Lemma similar_products_follow_candidate_order_witness :
  exists db' out,
    perform_mutation Scenario.similar_ctx Scenario.shop_db "0"
      Scenario.similar_input = Ok (db', out) /\
    similar_product_ids (product_search out) = [VStr "1"].
Proof.
  destruct (perform_mutation Scenario.similar_ctx Scenario.shop_db "0"
              Scenario.similar_input) as [[db' out]|e] eqn:Hcall;
    [|vm_compute in Hcall; discriminate].
  exists db', out. split; [reflexivity|].
  destruct (proj2 similar_products_follow_candidate_order _ _ _ _ _ _ Hcall)
    as (full_path & db1 & cands & client & Hc & Hinit & _ & Hids & _).
  injection Hc as <- <-. injection Hinit as <-.
  rewrite Hids. vm_compute in Hcall. injection Hcall as _ Hout.
  vm_compute. reflexivity.
Defined.

(** C1 as stated fails. The service names id 2 before id 1; the adapter
    returns candidate 1 before candidate 2, an order the reply does not
    contain.  And when the service names 3 and then 1 and one result is asked
    for, the record stores id 1, not the first id of the reply. *)
Lemma similar_products_not_in_response_order :
  find_similar_products (Scenario.answering "2, 1") Scenario.client "gpu.png"
    Scenario.two_candidates = Ok Scenario.two_candidates /\
  replied_ids (Scenario.answering "2, 1") Scenario.client "gpu.png"
    Scenario.two_candidates = ["2"; "1"] /\
  ~ follows_response_order ["2"; "1"] Scenario.two_candidates /\
  parse_product_ids "3, 1" = ["3"; "1"] /\
  Scenario.stored_ids Scenario.similar_call = [VStr "1"].
Proof.
  split; [vm_compute; reflexivity|]. split; [vm_compute; reflexivity|].
  split.
  { unfold follows_response_order. intros H. vm_compute in H.
    apply sublist_cons_r in H as [H | (l' & [=] & _)].
    apply sublist_cons_r in H as [H | (l' & [= <-] & H)];
      apply sublist_nil_r in H; discriminate. }
  split; vm_compute; reflexivity.
Qed.

End SimilarFacts.

(** ** Further properties of the adapter *)

Module AdapterExtras.
Import GeminiClient Text.
Import GeminiClientFacts.

Lemma rstrip_idem s : rstrip (rstrip s) = rstrip s.
Proof.
  induction s as [|c s IH]; [done|]. cbn [rstrip].
  destruct (rstrip s) as [|a r] eqn:E.
  - destruct (isspace c) eqn:Hc; [done|]. cbn [rstrip]. by rewrite Hc.
  - change (rstrip (String c (String a r)))
      with (match rstrip (String a r) with
            | EmptyString =>
                if isspace c then EmptyString else String c EmptyString
            | r' => String c r'
            end).
    by rewrite IH.
Qed.

Lemma rstrip_keeps_head c s :
  isspace c = false -> exists t, rstrip (String c s) = String c t.
Proof.
  intros Hc. cbn [rstrip]. destruct (rstrip s); rewrite ?Hc; eauto.
Qed.

Lemma lstrip_head s :
  lstrip s = "" \/ exists c t, lstrip s = String c t /\ isspace c = false.
Proof.
  induction s as [|c s IH]; [by left|]. cbn [lstrip].
  destruct (isspace c) eqn:Hc; [exact IH|]. right. eauto.
Qed.

Lemma strip_idem s : strip (strip s) = strip s.
Proof.
  unfold strip. destruct (lstrip_head s) as [-> | (c & t & -> & Hc)]; [done|].
  destruct (rstrip_keeps_head c t Hc) as [t' E]. rewrite E at 1.
  cbn [lstrip]. rewrite Hc, <- E. apply rstrip_idem.
Qed.

Lemma has_char_cons c a s :
  has_char c (String a s) <-> c = a \/ has_char c s.
Proof. unfold has_char. simpl. apply elem_of_cons. Qed.

Lemma has_char_lstrip c s : has_char c (lstrip s) -> has_char c s.
Proof.
  induction s as [|a s IH]; [done|]. cbn [lstrip].
  destruct (isspace a); [|done]. intros H. apply has_char_cons. auto.
Qed.

Lemma has_char_rstrip c s : has_char c (rstrip s) -> has_char c s.
Proof.
  induction s as [|a s IH]; [done|]. cbn [rstrip]. rewrite has_char_cons.
  destruct (rstrip s) as [|b r].
  - destruct (isspace a); [by intros ?%elem_of_nil|].
    intros [H | H]%has_char_cons; [by left | by apply elem_of_nil in H].
  - intros [H | H]%has_char_cons; auto.
Qed.

Lemma has_char_strip c s : has_char c (strip s) -> has_char c s.
Proof. intros H. by apply has_char_lstrip, has_char_rstrip. Qed.

Lemma split_nonempty sep s : split sep s ≠ [].
Proof.
  destruct s as [|c s]; [done|]. cbn [split].
  destruct (Ascii.eqb c sep); [done|]. by destruct (split sep s).
Qed.

Lemma split_length sep s : length (split sep s) = S (count_char sep s).
Proof.
  induction s as [|c s IH]; [done|]. cbn [split count_char].
  destruct (Ascii.eqb c sep).
  - simpl. by rewrite IH.
  - pose proof (split_nonempty sep s). destruct (split sep s); [done|].
    simpl in *. lia.
Qed.

Lemma split_no_sep sep s : Forall (λ w, ¬ has_char sep w) (split sep s).
Proof.
  induction s as [|c s IH].
  - constructor; [|constructor]. by intros ?%elem_of_nil.
  - cbn [split]. destruct (Ascii.eqb_spec c sep) as [-> | Hne].
    + constructor; [|exact IH]. by intros ?%elem_of_nil.
    + destruct (split sep s) as [|w ws].
      * constructor; [|constructor].
        intros [H | H]%has_char_cons; [congruence | by apply elem_of_nil in H].
      * apply Forall_cons in IH as [Hw Hws]. constructor; [|exact Hws].
        intros [H | H]%has_char_cons; [congruence | by apply Hw].
Qed.

(** X1. The id list parsed from a reply has one entry more than the trimmed
    reply has commas (so it is never empty), and every entry is trimmed and
    free of commas. *)
Theorem parse_product_ids_shape txt :
  length (parse_product_ids txt) = S (count_char "," (strip txt)) /\
  Forall (λ i, strip i = i /\ ¬ has_char "," i) (parse_product_ids txt).
Proof.
  unfold parse_product_ids. split.
  - by rewrite length_fmap, split_length.
  - apply Forall_fmap. eapply Forall_impl; [apply split_no_sep|].
    intros w Hw. simpl. split; [apply strip_idem|].
    intros H. by apply Hw, has_char_strip.
Qed.

(** X2. [_process_uploaded_file] either returns the handle the upload gave,
    for a determinable media type, or raises a [ValueError] whose message is
    "Error processing file: " followed by the original message: the fixed
    text for an undeterminable type, the upload's own message otherwise,
    whatever class the upload raised. *)
Theorem process_uploaded_file_outcomes g path :
  (exists m f,
      guess_type g path = Some m /\ m ≠ "" /\
      upload_file g path m = Ok f /\
      _process_uploaded_file g path = Ok f)
  \/
  (exists msg,
      _process_uploaded_file g path =
        Raise (Exn ValueError ("Error processing file: " +:+ msg)) /\
      ((undeterminable g path /\ msg = "Could not determine MIME type") \/
       (exists m e,
           guess_type g path = Some m /\ m ≠ "" /\
           upload_file g path m = Raise e /\ msg = exn_msg e))).
Proof.
  unfold _process_uploaded_file, undeterminable.
  destruct (guess_type g path) as [[|a m]|] eqn:Hm.
  - right. eexists. split; [reflexivity|]. left. auto.
  - destruct (upload_file g path (String a m)) as [f|e] eqn:Hu.
    + left. exists (String a m), f. done.
    + right. exists (exn_msg e). split; [reflexivity|].
      right. exists (String a m), e. done.
  - right. eexists. split; [reflexivity|]. left. auto.
Qed.

(** X3. When the media type is known but the upload raises, the string
    returned by [identify_hardware_from_image] carries both prefixes:
    "Error processing image: Error processing file: " and then the upload's
    message. *)
Theorem identify_upload_failure_text g self path m e :
  guess_type g path = Some m -> m ≠ "" ->
  upload_file g path m = Raise e ->
  identify_hardware_from_image g self path =
    Ok ("Error processing image: Error processing file: " +:+ exn_msg e).
Proof.
  intros Hm Hne Hu.
  unfold identify_hardware_from_image, identify_try, _process_uploaded_file.
  rewrite Hm. destruct m as [|a m]; [done|]. rewrite Hu. reflexivity.
Qed.

Lemma identify_upload_failure_text_witness :
  identify_hardware_from_image Scenario2.upload_down Scenario.client "gpu.png" =
    Ok "Error processing image: Error processing file: 429 quota exceeded".
Proof.
  apply (identify_upload_failure_text Scenario2.upload_down Scenario.client
           "gpu.png" "image/png" (Exn ApiError "429 quota exceeded")).
  - reflexivity.
  - discriminate.
  - reflexivity.
Defined.

(** X4. [hardware_chat] never raises and never rewrites history: what it
    returns is the input history (the empty one if absent), either as it was
    or extended by exactly the user turn of the query and a model turn whose
    text is the returned response. *)
Theorem hardware_chat_extends_history g self query hist :
  exists r,
    hardware_chat g self query hist = Ok r /\
    (history r = default [] hist \/
     history r =
       (default [] hist ++ [user_turn query; model_turn (response r)])%list).
Proof.
  unfold hardware_chat.
  destruct (chat_reply g self query hist) as [txt|e]; simpl;
    eexists; (split; [reflexivity|]); simpl;
    destruct hist as [[|h hs]|]; simpl; auto.
Qed.

(** X5. With a non-empty history [hardware_chat] talks to the service only
    through the conversation endpoint, with an empty or absent one only
    through single-turn generation: two services that agree on that
    endpoint give the same result. *)
Theorem hardware_chat_uses_one_endpoint g1 g2 self query hist :
  match hist with
  | Some (_ :: _) =>
      forall m h q, send_message g1 m h q = send_message g2 m h q
  | _ => forall m p, generate_content g1 m p = generate_content g2 m p
  end ->
  hardware_chat g1 self query hist = hardware_chat g2 self query hist.
Proof.
  intros H. unfold hardware_chat, chat_reply.
  destruct hist as [[|h hs]|]; by rewrite H.
Qed.

Lemma hardware_chat_uses_one_endpoint_witness :
  hardware_chat (Scenario.answering "Yes.") Scenario.client "Really?"
    (Some [user_turn "hello"; model_turn "hi"]) =
  hardware_chat (Scenario2.chat_only "Yes.") Scenario.client "Really?"
    (Some [user_turn "hello"; model_turn "hi"]).
Proof.
  apply (hardware_chat_uses_one_endpoint (Scenario.answering "Yes.")
           (Scenario2.chat_only "Yes.") Scenario.client "Really?"
           (Some [user_turn "hello"; model_turn "hi"])).
  intros m h q. reflexivity.
Defined.

Lemma mapM_raises {A B} (f : A -> result B) (l : list A) x :
  x ∈ l -> raises (f x) -> raises (mapM f l).
Proof.
  intros Hx [e He]. induction l as [|a l IH]; [by apply elem_of_nil in Hx|].
  cbn [mapM]. destruct (f a) as [y|e'] eqn:Ha; [|by exists e'].
  apply elem_of_cons in Hx as [-> | Hx]; [congruence|].
  destruct (IH Hx) as [e' He']. exists e'. simpl. by rewrite He'.
Qed.

Lemma product_line_raises (p : dict) :
  unsliceable (get_default p "description" (VStr "")) ->
  raises (product_line p).
Proof.
  intros H. unfold product_line.
  destruct (get_default p "description" (VStr "")) as [|z|s|r|l];
    try done; eexists; reflexivity.
Qed.

(** X7. If the description of any candidate is a value that cannot be
    sliced ([None], a number, a dict), [find_similar_products] returns the
    empty list for the whole request, whatever the service would have
    answered. *)
Theorem find_similar_bad_description g self path db (p : dict) :
  p ∈ db ->
  unsliceable (get_default p "description" (VStr "")) ->
  find_similar_products g self path db = Ok [].
Proof.
  intros Hp Hd.
  unfold find_similar_products, find_similar_try, similar_reply.
  destruct (_process_uploaded_file g path) as [f|e]; [|done].
  destruct (mapM_raises product_line db p Hp (product_line_raises p Hd))
    as [e He].
  simpl. by rewrite He.
Qed.

Lemma find_similar_bad_description_witness :
  find_similar_products (Scenario.answering "1, 3") Scenario.client "gpu.png"
    [Scenario.candidate "1" "RTX 3060"; Scenario2.json_candidate] = Ok [].
Proof.
  apply (find_similar_bad_description (Scenario.answering "1, 3")
           Scenario.client "gpu.png" _ Scenario2.json_candidate).
  - apply elem_of_cons. right. apply elem_of_cons. by left.
  - exact I.
Defined.

(** Slicing is the only step of a line that can fail. *)
Lemma product_line_sliceable (p : dict) :
  ~ unsliceable (get_default p "description" (VStr "")) ->
  exists line, product_line p = Ok line.
Proof.
  intros H. unfold product_line.
  destruct (get_default p "description" (VStr "")) as [|z|s|r|l];
    try (by destruct H); eexists; reflexivity.
Qed.

(** A description that is a list is sliced like a string, and the request
    goes on. *)
Lemma find_similar_list_description :
  find_similar_products (Scenario.answering "5") Scenario.client "gpu.png"
    [Scenario2.list_candidate] = Ok [Scenario2.list_candidate].
Proof. vm_compute. reflexivity. Qed.

(** X6. The result of [find_similar_products] depends on the reply only
    through the set of ids it names: two requests over the same candidates
    whose replies name the same ids, in any order and with any repetition,
    return the same list. *)
Theorem find_similar_depends_on_id_set g1 g2 self path1 path2 db :
  (forall i, i ∈ replied_ids g1 self path1 db <->
             i ∈ replied_ids g2 self path2 db) ->
  find_similar_products g1 self path1 db =
    find_similar_products g2 self path2 db.
Proof.
  intros H. rewrite !find_similar_is_filter. f_equal.
  apply list_filter_iff. intros p. apply H.
Qed.

Lemma find_similar_depends_on_id_set_witness :
  find_similar_products (Scenario.answering "2, 1") Scenario.client "a.png"
    Scenario.two_candidates =
  find_similar_products (Scenario.answering "1,1 ,2") Scenario.client "b.png"
    Scenario.two_candidates.
Proof.
  apply (find_similar_depends_on_id_set (Scenario.answering "2, 1")
           (Scenario.answering "1,1 ,2") Scenario.client "a.png" "b.png"
           Scenario.two_candidates).
  intros i.
  change (i ∈ ["2"; "1"] <-> i ∈ ["1"; "1"; "2"]).
  rewrite !elem_of_cons. pose proof (elem_of_nil i). tauto.
Defined.

(** X8. When the reply is blank, [find_similar_products] returns exactly the
    candidates whose id reads as the empty string, which includes every
    candidate without an "id" key. *)
Theorem find_similar_blank_reply g self path db txt :
  similar_reply g self path db = Ok txt ->
  blank txt ->
  find_similar_products g self path db =
    Ok (filter (λ p, id_str p = "") db).
Proof.
  intros Hr Hb. unfold find_similar_products, find_similar_try.
  rewrite Hr. simpl. f_equal. unfold parse_product_ids. rewrite Hb.
  apply list_filter_iff. intros p. simpl.
  rewrite list_elem_of_singleton. done.
Qed.

Lemma find_similar_blank_reply_witness :
  find_similar_products (Scenario.answering "   ") Scenario.client "gpu.png"
    [Scenario.candidate "1" "RTX 3060"; Scenario2.no_id_candidate] =
  Ok [Scenario2.no_id_candidate].
Proof.
  rewrite (find_similar_blank_reply (Scenario.answering "   ")
             Scenario.client "gpu.png"
             [Scenario.candidate "1" "RTX 3060"; Scenario2.no_id_candidate]
             "   " eq_refl eq_refl).
  vm_compute. reflexivity.
Defined.

End AdapterExtras.

(** ** Further properties of the chat-message mutation *)

Module ChatExtras.
Import GeminiClient Models Schema Schema.HardwareChatMessage Session.
Import Resolvers Frame GeminiClientFacts ChatFacts.

(** A call that returns has built the client, settled on a session and
    finished on the outcome of the chat. *)
Lemma perform_mutation_ok_inv ctx db inp db' out :
  perform_mutation ctx db inp = Ok (db', out) ->
  exists client db1 c hist,
    GeminiClient.init (settings ctx) = Ok client /\
    resolve_session ctx db (arg_get (in_session_id inp)) = Ok (db1, c, hist) /\
    (db', out) =
      finish db1 c (in_query inp)
        (chat_outcome (genai ctx) client (in_query inp) hist).
Proof.
  intros H. unfold perform_mutation in H.
  apply bind_ok in H as (client & Hinit & H).
  apply bind_ok in H as ([[db1 c] hist] & Hres & H).
  rewrite hardware_chat_outcome in H. simpl in H. injection H as <- <-.
  exists client, db1, c, hist. done.
Qed.

(** The two ways [resolve_session] returns. *)
Lemma resolve_session_cases ctx db sid db1 c hist :
  resolve_session ctx db sid = Ok (db1, c, hist) ->
  (exists s row,
      sid = Some s /\ s ≠ "" /\ chats db !! s = Some row /\
      c = chat_of_row s row /\ hist = row_history row /\
      db1 = log (ChatGet s) db)
  \/
  (¬ resolves db sid /\
   chats db !! uuid4 ctx = None /\
   c = {| chat_id := next_chat_id db; session_id := uuid4 ctx; history := [] |} /\
   hist = [] /\
   chats db1 = <[uuid4 ctx := {| row_id := next_chat_id db; row_history := [] |}]>
                 (chats db) /\
   queries db1 = queries db /\ same_other_tables db db1).
Proof.
  unfold resolve_session, chat_get, resolves. destruct sid as [[|a s]|].
  - intros H. apply bind_ok in H as ([d c'] & Hc & [= <- <- <-]).
    unfold chat_create in Hc.
    destruct (chats db !! uuid4 ctx) eqn:Hu; [done|]. injection Hc as <- <-.
    right. split; [by intros (s & row & [= <-] & ? & _)|]. done.
  - destruct (chats db !! String a s) as [row|] eqn:Hrow; simpl.
    + intros [= <- <- <-]. left. exists (String a s), row. done.
    + intros H. apply bind_ok in H as ([d c'] & Hc & [= <- <- <-]).
      unfold chat_create in Hc. simpl in Hc.
      destruct (chats db !! uuid4 ctx) eqn:Hu; [done|]. injection Hc as <- <-.
      right. split; [|done]. intros (s' & row & [= <-] & _ & Hr). congruence.
  - intros H. apply bind_ok in H as ([d c'] & Hc & [= <- <- <-]).
    unfold chat_create in Hc.
    destruct (chats db !! uuid4 ctx) eqn:Hu; [done|]. injection Hc as <- <-.
    right. split; [by intros (s & row & [=] & _)|]. done.
Qed.

(** X9. Without a configured API key the chat-message mutation raises the
    configuration error at once, for every request and database, before any
    session is looked up or created. *)
Theorem chat_mutation_unconfigured ctx db inp :
  ~ configured ctx ->
  perform_mutation ctx db inp =
    Raise (Exn ValueError "GEMINI_API_KEY not configured in settings").
Proof.
  intros H. unfold perform_mutation, GeminiClient.init.
  destruct (negb (truthy (default "" (GEMINI_API_KEY (settings ctx))))) eqn:E.
  - reflexivity.
  - exfalso. apply H. eexists. unfold GeminiClient.init. rewrite E.
    reflexivity.
Qed.

Lemma chat_mutation_unconfigured_witness :
  perform_mutation (Scenario2.unconfigured (Scenario.answering "hi") "u-1")
    Scenario.shop_db (request Absent "What is a GPU?") =
    Raise (Exn ValueError "GEMINI_API_KEY not configured in settings").
Proof.
  apply (chat_mutation_unconfigured
           (Scenario2.unconfigured (Scenario.answering "hi") "u-1")).
  intros [client H]. vm_compute in H. discriminate.
Defined.

(** X10. The chat-message mutation returns exactly when the API key is
    configured and the session argument resolves or the generated id is not
    yet stored; in particular no behaviour of the service makes it raise. *)
Theorem chat_mutation_returns_iff ctx db inp :
  (exists db' out, perform_mutation ctx db inp = Ok (db', out)) <->
  configured ctx /\
  (resolves db (arg_get (in_session_id inp)) \/ chats db !! uuid4 ctx = None).
Proof.
  split.
  - intros (db' & out & H).
    apply perform_mutation_ok_inv in H as (client & db1 & c & hist & Hi & Hr & _).
    split; [by exists client|].
    apply resolve_session_cases in Hr
      as [(s & row & Hs & Hne & Hrow & _) | (_ & Hu & _)].
    + left. exists s, row. done.
    + by right.
  - intros [[client Hi] Hs].
    assert (exists db1 c hist,
              resolve_session ctx db (arg_get (in_session_id inp)) =
                Ok (db1, c, hist)) as (db1 & c & hist & Hres).
    { destruct (arg_get (in_session_id inp)) as [sid|] eqn:Ha.
      - destruct (decide (sid = "")) as [-> | Hne].
        + destruct Hs as [(s & row & [= <-] & Hne & _) | Hu]; [done|].
          eexists _, _, _. apply resolve_session_absent; auto.
        + destruct (chats db !! sid) as [row|] eqn:Hrow.
          * eexists _, _, _. by apply resolve_session_found.
          * destruct Hs as [(s & row & [= <-] & _ & Hr) | Hu]; [congruence|].
            eexists _, _, _. by apply resolve_session_missing.
      - destruct Hs as [(s & row & [=] & _) | Hu].
        eexists _, _, _. apply resolve_session_absent; auto. }
    rewrite (perform_mutation_finish ctx db inp client _ _ _ Hi Hres).
    unfold finish. eauto.
Qed.

(** What a returning call leaves in the tables, in terms of the database it
    started from. *)
Lemma perform_mutation_tables ctx db inp db' out :
  perform_mutation ctx db inp = Ok (db', out) ->
  (chats db' = <[session_id (chat out) := row_of_chat (chat out)]> (chats db) /\
   queries db' =
     (queries db ++
      [query_row (chat out) (in_query inp) (response out)])%list /\
   same_other_tables db db').
Proof.
  intros H.
  apply perform_mutation_ok_inv in H as (client & db1 & c & hist & _ & Hr & E).
  injection E as -> ->.
  apply resolve_session_cases in Hr
    as [(s & row & _ & _ & _ & -> & _ & ->)
       | (_ & _ & -> & _ & Hc1 & Hq1 & Ho1)]; simpl.
  - done.
  - rewrite Hc1, Hq1, insert_insert_eq. destruct Ho1 as (? & ? & ?).
    unfold same_other_tables. simpl. done.
Qed.

(** X11. When the service fails on a resolved session, the mutation still
    returns: the response is the error text, the stored history stays as it
    was, and a query row is written whose answer is the error text. *)
Theorem chat_failure_is_recorded ctx db sid row query client e :
  sid ≠ "" ->
  chats db !! sid = Some row ->
  GeminiClient.init (settings ctx) = Ok client ->
  chat_reply (genai ctx) client query (Some (row_history row)) = Raise e ->
  exists db' out,
    perform_mutation ctx db (request (Given sid) query) = Ok (db', out) /\
    response out = "Error processing query: " +:+ exn_msg e /\
    chats db' !! sid = Some row /\
    queries db' =
      (queries db ++
       [query_row (chat out) query
          ("Error processing query: " +:+ exn_msg e)])%list.
Proof.
  intros Hne Hrow Hinit Hfail. eexists _, _. split.
  { rewrite (perform_mutation_finish ctx db (request (Given sid) query) client
               _ _ _ Hinit (resolve_session_found ctx db sid row Hne Hrow)).
    unfold finish. reflexivity. }
  unfold chat_outcome. simpl. rewrite Hfail. simpl.
  split; [done|]. split; [|done].
  rewrite lookup_insert_eq. by destruct row.
Qed.

Lemma chat_failure_is_recorded_witness :
  exists db' out,
    perform_mutation (Scenario.context Scenario.offline "u-2")
      (Scenario.db_of Scenario.first_call)
      (request (Given "u-1") "Really?") = Ok (db', out) /\
    response out = "Error processing query: 503 unavailable" /\
    chats db' !! "u-1" =
      Some {| row_id := 1;
              row_history := [user_turn "What is a GPU?";
                              model_turn "A GPU."] |}.
Proof.
  destruct (chat_failure_is_recorded (Scenario.context Scenario.offline "u-2")
              (Scenario.db_of Scenario.first_call) "u-1"
              {| row_id := 1;
                 row_history := [user_turn "What is a GPU?";
                                 model_turn "A GPU."] |}
              "Really?" Scenario.client (Exn ApiError "503 unavailable"))
    as (db' & out & Hcall & Hresp & Hrow & _).
  - discriminate.
  - vm_compute. reflexivity.
  - reflexivity.
  - reflexivity.
  - exists db', out. done.
Defined.

(** X12. A returning chat-message call touches one session only: every
    other session id resolves as before, exactly one query row is appended
    (the chat's key, the query, the returned response), and the
    identification, search and product tables are unchanged. *)
Theorem chat_mutation_frame ctx db inp db' out :
  perform_mutation ctx db inp = Ok (db', out) ->
  (forall sid, sid ≠ session_id (chat out) ->
               chats db' !! sid = chats db !! sid) /\
  queries db' =
    (queries db ++
     [query_row (chat out) (in_query inp) (response out)])%list /\
  same_other_tables db db'.
Proof.
  intros H. apply perform_mutation_tables in H as (Hc & Hq & Ho).
  split; [|done]. intros sid Hne. rewrite Hc. by apply lookup_insert_ne.
Qed.

Lemma chat_mutation_frame_witness :
  exists db' out,
    perform_mutation Scenario.chat_ctx2 (Scenario.db_of Scenario.first_call)
      (request Absent "And a CPU?") = Ok (db', out) /\
    chats db' !! "u-1" = chats (Scenario.db_of Scenario.first_call) !! "u-1" /\
    length (queries db') = 2.
Proof.
  destruct (perform_mutation Scenario.chat_ctx2
              (Scenario.db_of Scenario.first_call)
              (request Absent "And a CPU?")) as [[db' out]|e] eqn:Hcall;
    [|vm_compute in Hcall; discriminate].
  exists db', out. split; [reflexivity|].
  destruct (chat_mutation_frame _ _ _ _ _ Hcall) as (Hc & Hq & _).
  split.
  - apply Hc. vm_compute in Hcall. injection Hcall as _ <-. discriminate.
  - rewrite Hq. reflexivity.
Defined.

(** X13. On a resolved session the stored history only grows: after the
    call the session keeps its id and key, its old history is a prefix of the
    new one, and the new one is longer by zero or two turns. *)
Theorem chat_history_append_only ctx db sid row query db' out :
  sid ≠ "" ->
  chats db !! sid = Some row ->
  perform_mutation ctx db (request (Given sid) query) = Ok (db', out) ->
  session_id (chat out) = sid /\
  chat_id (chat out) = row_id row /\
  row_history row `prefix_of` history (chat out) /\
  chats db' !! sid = Some (row_of_chat (chat out)) /\
  (length (history (chat out)) = length (row_history row) \/
   length (history (chat out)) = length (row_history row) + 2).
Proof.
  intros Hne Hrow H.
  apply perform_mutation_ok_inv in H as (client & db1 & c & hist & _ & Hr & E).
  change (resolve_session ctx db (Some sid) = Ok (db1, c, hist)) in Hr.
  rewrite (resolve_session_found ctx db sid row Hne Hrow) in Hr.
  injection Hr as <- <- <-. injection E as -> ->. simpl.
  split; [done|]. split; [done|]. unfold chat_outcome.
  destruct (chat_reply _ _ _ _) as [txt|e]; simpl.
  - split; [by apply prefix_app_r|]. split; [by rewrite lookup_insert_eq|].
    right. rewrite length_app. simpl. lia.
  - split; [done|]. split; [by rewrite lookup_insert_eq|]. by left.
Qed.

Lemma chat_history_append_only_witness :
  exists db' out,
    perform_mutation Scenario.chat_ctx2 (Scenario.db_of Scenario.first_call)
      (request (Given "u-1") "Really?") = Ok (db', out) /\
    [user_turn "What is a GPU?"; model_turn "A GPU."]
      `prefix_of` history (chat out).
Proof.
  destruct (perform_mutation Scenario.chat_ctx2
              (Scenario.db_of Scenario.first_call)
              (request (Given "u-1") "Really?")) as [[db' out]|e] eqn:Hcall;
    [|vm_compute in Hcall; discriminate].
  exists db', out. split; [reflexivity|].
  destruct (chat_history_append_only Scenario.chat_ctx2
              (Scenario.db_of Scenario.first_call) "u-1"
              {| row_id := 1;
                 row_history := [user_turn "What is a GPU?";
                                 model_turn "A GPU."] |}
              "Really?" db' out) as (_ & _ & Hpre & _).
  - discriminate.
  - vm_compute. reflexivity.
  - exact Hcall.
  - exact Hpre.
Defined.

(** X14. The session returned by a chat-message call can be read back:
    [resolve_hardware_chat] on the returned session id gives the returned
    session, with the history the call produced. *)
Theorem chat_session_round_trip ctx db inp db' out :
  perform_mutation ctx db inp = Ok (db', out) ->
  resolve_hardware_chat db' (session_id (chat out)) = Some (chat out).
Proof.
  intros H. apply perform_mutation_tables in H as (Hc & _).
  unfold resolve_hardware_chat. rewrite Hc, lookup_insert_eq. simpl.
  by destruct (chat out).
Qed.

Lemma chat_session_round_trip_witness :
  resolve_hardware_chat (Scenario.db_of Scenario.first_call) "u-1" =
    Some (Scenario.payload_of Scenario.first_call).(chat).
Proof.
  apply (chat_session_round_trip Scenario.chat_ctx1 Scenario.shop_db
           (request Absent "What is a GPU?")
           (Scenario.db_of Scenario.first_call)
           (Scenario.payload_of Scenario.first_call)).
  vm_compute. reflexivity.
Defined.

(** X15. After a chat-message call, the queries listed for the returned
    session are those listed before followed by the row of this call. *)
Theorem chat_queries_grow_by_one ctx db inp db' out :
  perform_mutation ctx db inp = Ok (db', out) ->
  resolve_queries (chat out) db' =
    (resolve_queries (chat out) db ++
     [query_row (chat out) (in_query inp) (response out)])%list.
Proof.
  intros H. apply perform_mutation_tables in H as (_ & Hq & _).
  unfold resolve_queries. rewrite Hq, filter_app. f_equal.
  rewrite filter_cons. simpl. by rewrite decide_True.
Qed.

Lemma chat_queries_grow_by_one_witness :
  resolve_queries (Scenario.payload_of Scenario.second_call).(chat)
    (Scenario.db_of Scenario.second_call) =
    [ {| Models.chat := 1; question := "What is a GPU?"; answer := "A GPU." |};
      {| Models.chat := 1; question := "Really?"; answer := "Yes." |} ].
Proof.
  rewrite (chat_queries_grow_by_one Scenario.chat_ctx2
             (Scenario.db_of Scenario.first_call)
             (request (Given "u-1") "Really?")
             (Scenario.db_of Scenario.second_call)
             (Scenario.payload_of Scenario.second_call));
    vm_compute; reflexivity.
Defined.

End ChatExtras.

(** ** Further properties of the upload mutations *)

Module SimilarExtras.
Import GeminiClient Models Schema Schema.FindSimilarProducts Similar.
Import Resolvers Frame Text Kept GeminiClientFacts SimilarFacts AdapterExtras.

Lemma last_item_split name : last_item (split "." name) = Ok (extension name).
Proof.
  unfold last_item, extension.
  destruct (last (split "." name)) eqn:E; [done|].
  apply last_None in E. by apply split_nonempty in E.
Qed.

Lemma identify_total g self path :
  exists s, identify_hardware_from_image g self path = Ok s.
Proof.
  unfold identify_hardware_from_image.
  destruct (identify_try g self path); simpl; eauto.
Qed.

(** The candidates are read, not written. *)
Lemma candidates_log ctx db cat db1 cands :
  candidates ctx db cat = Ok (db1, cands) -> exists op, db1 = log op db.
Proof.
  unfold candidates. destruct cat as [[|a s]|].
  - intros [= <- <-]. by eexists.
  - intros H. apply bind_ok in H as (c & _ & [= <- <-]). by eexists.
  - intros [= <- <-]. by eexists.
Qed.

(** What the mutation returns once its inputs are in place. *)
Lemma perform_mutation_run ctx db image inp f path full_path db1 cands
    client label :
  FILES ctx !! image = Some f ->
  storage_save ctx (pss_name ctx f) (content f) = Ok path ->
  storage_path ctx path = Ok full_path ->
  fits_image_column path ->
  candidates ctx db (arg_get (in_category_id inp)) = Ok (db1, cands) ->
  GeminiClient.init (settings ctx) = Ok client ->
  identify_hardware_from_image (genai ctx) client full_path = Ok label ->
  let kept := kept_products ctx client full_path inp cands in
  let row := {| pss_image := path; identified_component := label;
                similar_product_ids := id_value <$> kept |} in
  perform_mutation ctx db image inp =
    Ok (log (ProductFilterIdIn (product_id <$> kept)) (with_search row db1),
        {| product_search := row;
           similar_products :=
             filter (λ p, product_id p ∈ product_id <$> kept) (products db) |}).
Proof.
  intros Hf Hs Hp Hfit Hc Hi Hl kept row.
  unfold perform_mutation, files_get. rewrite Hf.
  cbn [mbind result_bind Py.bind]. rewrite last_item_split.
  cbn [mbind result_bind Py.bind]. fold (pss_name ctx f). rewrite Hs.
  cbn [mbind result_bind Py.bind]. rewrite Hp.
  cbn [mbind result_bind Py.bind]. rewrite Hc.
  cbn [mbind result_bind Py.bind]. rewrite Hi.
  cbn [mbind result_bind Py.bind]. rewrite Hl.
  cbn [mbind result_bind Py.bind]. rewrite find_similar_matched.
  cbn [mbind result_bind Py.bind]. fold (limit inp).
  rewrite slice_upto_fmap, <- list_fmap_compose.
  rewrite (list_fmap_ext _ id_value) by (intros; apply get_id_product_dict).
  fold (kept_products ctx client full_path inp cands). fold kept.
  unfold search_create. apply Nat.leb_le in Hfit as ->.
  cbn [mbind result_bind Py.bind].
  unfold products_id_in. rewrite pks_of_id_values.
  cbn [mbind result_bind Py.bind]. rewrite omap_id_Some.
  apply candidates_sublist in Hc as [_ Hprod].
  unfold with_search. cbn [products log]. rewrite Hprod. reflexivity.
Qed.

(** A call that returns went through every step. *)
Lemma perform_mutation_steps ctx db image inp db' out :
  perform_mutation ctx db image inp = Ok (db', out) ->
  exists f path full_path db1 cands client label,
    FILES ctx !! image = Some f /\
    storage_save ctx (pss_name ctx f) (content f) = Ok path /\
    storage_path ctx path = Ok full_path /\
    fits_image_column path /\
    candidates ctx db (arg_get (in_category_id inp)) = Ok (db1, cands) /\
    GeminiClient.init (settings ctx) = Ok client /\
    identify_hardware_from_image (genai ctx) client full_path = Ok label /\
    let kept := kept_products ctx client full_path inp cands in
    db' = log (ProductFilterIdIn (product_id <$> kept))
            (with_search
               {| pss_image := path; identified_component := label;
                  similar_product_ids := id_value <$> kept |} db1) /\
    out = {| product_search :=
               {| pss_image := path; identified_component := label;
                  similar_product_ids := id_value <$> kept |};
             similar_products :=
               filter (λ p, product_id p ∈ product_id <$> kept)
                 (products db) |}.
Proof.
  intros H. pose proof H as H0. unfold perform_mutation, files_get in H.
  destruct (FILES ctx !! image) as [f|] eqn:Hf; [|done].
  cbn [mbind result_bind Py.bind] in H. rewrite last_item_split in H.
  cbn [mbind result_bind Py.bind] in H. fold (pss_name ctx f) in H.
  apply bind_ok in H as (path & Hs & H).
  apply bind_ok in H as (full_path & Hp & H).
  apply bind_ok in H as ([db1 cands] & Hc & H).
  apply bind_ok in H as (client & Hi & H).
  apply bind_ok in H as (label & Hl & H).
  apply bind_ok in H as (data & _ & H).
  apply bind_ok in H as ([db2 ps] & Hfit & _).
  assert (fits_image_column path) as Hfit'.
  { unfold search_create in Hfit. unfold fits_image_column.
    destruct (Nat.leb_spec (String.length path) image_max_length); done. }
  rewrite (perform_mutation_run ctx db image inp f path full_path db1 cands
             client label Hf Hs Hp Hfit' Hc Hi Hl) in H0.
  injection H0 as <- <-.
  exists f, path, full_path, db1, cands, client, label. done.
Qed.

Lemma filter_ext_in {A} (P1 P2 : A -> Prop)
    `{!∀ x, Decision (P1 x), !∀ x, Decision (P2 x)} (l : list A) :
  (forall x, x ∈ l -> P1 x <-> P2 x) -> filter P1 l = filter P2 l.
Proof.
  induction l as [|a l IH]; [done|]. intros Hext.
  assert (filter P1 l = filter P2 l) as E.
  { apply IH. intros x Hx. apply Hext. by apply elem_of_cons; right. }
  assert (P1 a <-> P2 a) as Ha by (apply Hext, elem_of_cons; by left).
  rewrite !filter_cons, E.
  destruct (decide (P1 a)) as [H1|H1], (decide (P2 a)) as [H2|H2];
    try done; tauto.
Qed.

(** Selecting from a table with distinct keys by the keys of some of its
    rows, taken in table order, gives back these rows. *)
Lemma filter_keys_sublist {A B} `{EqDecision B} (f : A -> B) (k l : list A) :
  NoDup (f <$> l) -> k `sublist_of` l ->
  filter (λ x, f x ∈ f <$> k) l = k.
Proof.
  intros Hnd Hsub. induction Hsub as [|x k l Hsub IH|x k l Hsub IH].
  - done.
  - rewrite fmap_cons in Hnd. apply NoDup_cons in Hnd as [Hx Hnd].
    rewrite filter_cons_True by (rewrite fmap_cons; apply elem_of_cons; by left).
    f_equal. trans (filter (λ y, f y ∈ f <$> k) l); [|by apply IH].
    apply filter_ext_in. intros y Hy. rewrite fmap_cons, elem_of_cons. split; [|by right].
    intros [E | H]; [|done]. exfalso. apply Hx. rewrite <- E.
    by apply list_elem_of_fmap_2.
  - rewrite fmap_cons in Hnd. apply NoDup_cons in Hnd as [Hx Hnd].
    rewrite filter_cons_False; [by apply IH|].
    intros (y & E & Hy)%list_elem_of_fmap. apply Hx. rewrite E.
    apply list_elem_of_fmap_2. eapply sublist_subseteq; eauto.
Qed.

Lemma kept_sublist ctx client full_path inp db cat db1 cands :
  candidates ctx db cat = Ok (db1, cands) ->
  kept_products ctx client full_path inp cands `sublist_of` products db.
Proof.
  intros [Hc _]%candidates_sublist. unfold kept_products.
  etrans; [apply slice_upto_sublist|]. etrans; [apply sublist_filter|done].
Qed.

(** X16. The find-similar-products mutation returns whenever the upload is
    present, the storage accepts it, the stored path fits the image column
    (100 characters), the category id converts and the API key is configured:
    under these conditions nothing the service does and no id it names makes
    the call raise.  The record it creates carries the stored path and the
    text of the identification. *)
Theorem similar_mutation_returns ctx db image inp f path full_path db1 cands :
  FILES ctx !! image = Some f ->
  storage_save ctx (pss_name ctx f) (content f) = Ok path ->
  storage_path ctx path = Ok full_path ->
  fits_image_column path ->
  candidates ctx db (arg_get (in_category_id inp)) = Ok (db1, cands) ->
  Session.configured ctx ->
  exists db' out client,
    perform_mutation ctx db image inp = Ok (db', out) /\
    pss_image (product_search out) = path /\
    GeminiClient.init (settings ctx) = Ok client /\
    identify_hardware_from_image (genai ctx) client full_path =
      Ok (identified_component (product_search out)).
Proof.
  intros Hf Hs Hp Hfit Hc [client Hi].
  destruct (identify_total (genai ctx) client full_path) as [label Hl].
  eexists _, _, client. split.
  { apply (perform_mutation_run ctx db image inp f path full_path db1 cands
             client label Hf Hs Hp Hfit Hc Hi Hl). }
  simpl. done.
Qed.

Lemma similar_mutation_returns_witness :
  fits_image_column "pss/u-9.png" /\
  exists db' out,
    perform_mutation (Scenario.context Scenario.offline "u-9")
      Scenario.shop_db "0" Scenario.similar_input = Ok (db', out) /\
    pss_image (product_search out) = "pss/u-9.png".
Proof.
  assert (fits_image_column "pss/u-9.png") as Hfit
    by (unfold fits_image_column, image_max_length; simpl; lia).
  split; [exact Hfit|].
  destruct (similar_mutation_returns
              (Scenario.context Scenario.offline "u-9") Scenario.shop_db "0"
              Scenario.similar_input
              {| name := "gpu.png"; content := "PNG" |}
              "pss/u-9.png" "/media/pss/u-9.png"
              (log ProductAll Scenario.shop_db) Scenario.catalogue)
    as (db' & out & _ & Hcall & Hpath & _).
  - reflexivity.
  - reflexivity.
  - reflexivity.
  - exact Hfit.
  - reflexivity.
  - exists Scenario.client. reflexivity.
  - exists db', out. done.
Defined.

(** X17. With distinct product keys, the id list stored in the search record
    is exactly the ids of the products the mutation returns, in the same
    order. *)
Theorem similar_ids_match_products ctx db image inp db' out :
  pk_unique db ->
  perform_mutation ctx db image inp = Ok (db', out) ->
  similar_product_ids (product_search out) = id_value <$> similar_products out.
Proof.
  intros Hpk H.
  apply perform_mutation_steps in H
    as (f & path & full_path & db1 & cands & client & label
        & _ & _ & _ & _ & Hc & _ & _ & _ & ->).
  simpl. f_equal. symmetry. apply filter_keys_sublist; [exact Hpk|].
  eapply kept_sublist, Hc.
Qed.

Lemma similar_ids_match_products_witness :
  exists db' out,
    perform_mutation Scenario.similar_ctx Scenario.shop_db "0"
      Scenario.similar_input = Ok (db', out) /\
    similar_product_ids (product_search out) =
      id_value <$> similar_products out.
Proof.
  destruct (perform_mutation Scenario.similar_ctx Scenario.shop_db "0"
              Scenario.similar_input) as [[db' out]|e] eqn:Hcall;
    [|vm_compute in Hcall; discriminate].
  exists db', out. split; [reflexivity|].
  apply (similar_ids_match_products Scenario.similar_ctx Scenario.shop_db "0"
           Scenario.similar_input db' out); [|exact Hcall].
  apply (bool_decide_unpack _). by vm_compute.
Defined.

(** X18. How [max_results] cuts the stored id list: left out it keeps the
    first three matches, [null] keeps them all, a negative number drops that
    many matches from the end. *)
Theorem similar_limit_edges ctx db image inp db' out :
  perform_mutation ctx db image inp = Ok (db', out) ->
  exists full_path db1 cands client,
    candidates ctx db (arg_get (in_category_id inp)) = Ok (db1, cands) /\
    GeminiClient.init (settings ctx) = Ok client /\
    let hits :=
      matched (replied_ids (genai ctx) client full_path
                 (product_dict <$> cands)) cands in
    similar_product_ids (product_search out) =
      id_value <$>
        match in_max_results inp with
        | Absent => take 3 hits
        | Null => hits
        | Given m =>
            if (0 <=? m)%Z then take (Z.to_nat m) hits
            else take (length hits - Z.to_nat (- m)) hits
        end.
Proof.
  intros H.
  apply perform_mutation_steps in H
    as (f & path & full_path & db1 & cands & client & label
        & _ & _ & _ & _ & Hc & Hi & _ & _ & ->).
  exists full_path, db1, cands, client. split; [exact Hc|].
  split; [exact Hi|]. simpl. unfold kept_products, limit.
  by destruct (in_max_results inp).
Qed.

Lemma similar_limit_edges_witness :
  exists db' out,
    perform_mutation (Scenario.context (Scenario.answering "3, 1, 2") "u-9")
      Scenario.shop_db "0"
      {| in_category_id := Absent; in_max_results := Given (-1)%Z |} =
      Ok (db', out) /\
    similar_product_ids (product_search out) = [VStr "1"; VStr "2"].
Proof.
  destruct (perform_mutation
              (Scenario.context (Scenario.answering "3, 1, 2") "u-9")
              Scenario.shop_db "0"
              {| in_category_id := Absent; in_max_results := Given (-1)%Z |})
    as [[db' out]|e] eqn:Hcall; [|vm_compute in Hcall; discriminate].
  exists db', out. split; [reflexivity|].
  destruct (similar_limit_edges _ _ _ _ _ _ Hcall)
    as (full_path & db1 & cands & client & Hc & Hi & Hids).
  injection Hc as <- <-. injection Hi as <-. rewrite Hids.
  vm_compute in Hcall. injection Hcall as _ Hout.
  vm_compute. reflexivity.
Defined.

(** X19. The record of a search can be resolved later: on the database the
    mutation leaves, [resolve_similar_products] of the stored record gives
    the products the mutation returned. *)
Theorem similar_record_round_trip ctx db image inp db' out :
  perform_mutation ctx db image inp = Ok (db', out) ->
  resolve_similar_products (product_search out) db' =
    Ok (similar_products out).
Proof.
  intros H.
  apply perform_mutation_steps in H
    as (f & path & full_path & db1 & cands & client & label
        & _ & _ & _ & _ & Hc & _ & _ & -> & ->).
  apply candidates_sublist in Hc as [_ Hprod].
  unfold resolve_similar_products, products_id_in. simpl.
  rewrite pks_of_id_values. cbn [mbind result_bind Py.bind].
  rewrite omap_id_Some. simpl. by rewrite Hprod.
Qed.

Lemma similar_record_round_trip_witness :
  exists db' out,
    perform_mutation Scenario.similar_ctx Scenario.shop_db "0"
      Scenario.similar_input = Ok (db', out) /\
    resolve_similar_products (product_search out) db' =
      Ok [Scenario.product 1 "RTX 3060"].
Proof.
  destruct (perform_mutation Scenario.similar_ctx Scenario.shop_db "0"
              Scenario.similar_input) as [[db' out]|e] eqn:Hcall;
    [|vm_compute in Hcall; discriminate].
  exists db', out. split; [reflexivity|].
  rewrite (similar_record_round_trip _ _ _ _ _ _ Hcall).
  vm_compute in Hcall. injection Hcall as _ <-. reflexivity.
Defined.

(** X20. A returning find-similar-products call appends exactly one search
    record, the one it returns, and changes no other table. *)
Theorem similar_mutation_frame ctx db image inp db' out :
  perform_mutation ctx db image inp = Ok (db', out) ->
  searches db' = (searches db ++ [product_search out])%list /\
  same_chat_tables db db' /\
  identifications db' = identifications db /\
  products db' = products db.
Proof.
  intros H.
  apply perform_mutation_steps in H
    as (f & path & full_path & db1 & cands & client & label
        & _ & _ & _ & _ & Hc & _ & _ & -> & ->).
  apply candidates_log in Hc as [op ->]. done.
Qed.

Lemma similar_mutation_frame_witness :
  exists db' out,
    perform_mutation Scenario.similar_ctx Scenario.shop_db "0"
      Scenario.similar_input = Ok (db', out) /\
    searches db' = [product_search out] /\
    products db' = Scenario.catalogue.
Proof.
  destruct (perform_mutation Scenario.similar_ctx Scenario.shop_db "0"
              Scenario.similar_input) as [[db' out]|e] eqn:Hcall;
    [|vm_compute in Hcall; discriminate].
  exists db', out. split; [reflexivity|].
  destruct (similar_mutation_frame _ _ _ _ _ _ Hcall) as (Hs & _ & _ & Hp).
  split; [exact Hs | exact Hp].
Defined.

Lemma description_product_dict p :
  get_default (product_dict p) "description" (VStr "") =
    product_description p.
Proof. done. Qed.

Lemma similar_reply_raises g self path db (p : dict) :
  p ∈ db ->
  unsliceable (get_default p "description" (VStr "")) ->
  raises (similar_reply g self path db).
Proof.
  intros Hp Hd. unfold similar_reply.
  destruct (_process_uploaded_file g path) as [f|e]; [|by exists e].
  destruct (mapM_raises product_line db p Hp (product_line_raises p Hd))
    as [e He].
  exists e. simpl. by rewrite He.
Qed.

Lemma filter_elem_of_nil {A B} `{EqDecision B} (f : A -> B) (l : list A) :
  filter (λ x, f x ∈ ([] : list B)) l = [].
Proof.
  induction l as [|x l IH]; [done|].
  rewrite filter_cons_False; [exact IH | by intros ?%elem_of_nil].
Qed.

Lemma slice_upto_nil {A} m : slice_upto m ([] : list A) = [].
Proof.
  unfold slice_upto. destruct m as [z|]; [|done].
  destruct (0 <=? z)%Z; apply take_nil.
Qed.

(** X21. If one product among the candidates has a description that cannot
    be sliced ([None], a number, a dict), a returning find-similar-products
    call stores no id and returns no product, whatever the service
    answers. *)
Theorem similar_bad_description_empty ctx db image inp db' out db1 cands p :
  perform_mutation ctx db image inp = Ok (db', out) ->
  candidates ctx db (arg_get (in_category_id inp)) = Ok (db1, cands) ->
  p ∈ cands ->
  unsliceable (product_description p) ->
  similar_product_ids (product_search out) = [] /\
  similar_products out = [].
Proof.
  intros H Hc Hp Hd.
  apply perform_mutation_steps in H
    as (f & path & full_path & db1' & cands' & client & label
        & _ & _ & _ & _ & Hc' & _ & _ & _ & ->).
  rewrite Hc in Hc'. injection Hc' as <- <-.
  assert (kept_products ctx client full_path inp cands = []) as ->.
  { unfold kept_products, replied_ids.
    destruct (similar_reply_raises (genai ctx) client full_path
                (product_dict <$> cands) (product_dict p)) as [e ->].
    - by apply list_elem_of_fmap_2.
    - by rewrite description_product_dict.
    - unfold matched. by rewrite filter_elem_of_nil, slice_upto_nil. }
  simpl. split; [done|]. apply filter_elem_of_nil.
Qed.

Lemma similar_bad_description_empty_witness :
  exists db' out,
    perform_mutation Scenario.similar_ctx Scenario2.json_db "0"
      Scenario.similar_input = Ok (db', out) /\
    similar_product_ids (product_search out) = [] /\
    similar_products out = [].
Proof.
  destruct (perform_mutation Scenario.similar_ctx Scenario2.json_db "0"
              Scenario.similar_input) as [[db' out]|e] eqn:Hcall;
    [|vm_compute in Hcall; discriminate].
  exists db', out. split; [reflexivity|].
  apply (similar_bad_description_empty Scenario.similar_ctx Scenario2.json_db
           "0" Scenario.similar_input db' out
           (log ProductAll Scenario2.json_db)
           (Scenario.catalogue ++ [Scenario2.json_product])%list
           Scenario2.json_product Hcall).
  - reflexivity.
  - apply elem_of_app. right. apply elem_of_cons. by left.
  - exact I.
Defined.

(** X22. Both upload mutations raise [KeyError] when the request carries no
    file under the upload key, as their first step; the text of the exception
    is the [repr] of the key. *)
Theorem mutations_missing_upload ctx db image inp :
  FILES ctx !! image = None ->
  perform_mutation ctx db image inp = Raise (Exn KeyError (repr_str image)) /\
  IdentifyHardwareImage.perform_mutation ctx db image =
    Raise (Exn KeyError (repr_str image)).
Proof.
  intros H.
  unfold perform_mutation, IdentifyHardwareImage.perform_mutation, files_get.
  by rewrite H.
Qed.

Lemma mutations_missing_upload_witness :
  perform_mutation Scenario.similar_ctx Scenario.shop_db "7"
    Scenario.similar_input = Raise (Exn KeyError "'7'") /\
  IdentifyHardwareImage.perform_mutation Scenario.similar_ctx Scenario.shop_db
    "7" = Raise (Exn KeyError "'7'").
Proof.
  apply (mutations_missing_upload Scenario.similar_ctx Scenario.shop_db "7"
           Scenario.similar_input).
  reflexivity.
Defined.



End SimilarExtras.
